(** * crawlera_session: session pool, bind policy and admission gate

    A shallow embedding of [crawlera_session/__init__.py].  Python objects that
    the code mutates in place (the spider's class attributes, a request's
    [meta] and [headers]) are passed explicitly and returned updated.  The two
    sources of nondeterminism, [uuid.uuid1()] and [random.choice], are
    arguments of the functions that call them. *)

From stdpp Require Import gmap strings list.
From Stdlib Require Import ZArith.

Set Warnings "-clear-no-such-hyp".

Open Scope string_scope.
Open Scope list_scope.
Open Scope Z_scope.

(** ** Data model *)

(** Cookiejar keys and session tokens are Python strings. *)
Abbreviation key := string (only parsing).
Abbreviation token := string (only parsing).

(** The exceptions the module raises itself or lets escape. *)
Inductive exn :=
  | SessionNotInitializedError
  | WrongSessionError
  | KeyError
  | IgnoreRequest.

(** [RequestSession.__init__]: the four configuration attributes. *)
Record RequestSession := {
  crawlera_session : bool;
  x_crawlera_cookies : option string;
  x_crawlera_profile : option string;
  x_crawlera_wait : option string
}.

#[global] Instance RequestSession_eq_dec : EqDecision RequestSession.
Proof. solve_decision. Defined.

(** The constructor's default arguments. *)
Definition default_session : RequestSession :=
  {| crawlera_session := true;
     x_crawlera_cookies := Some "disable";
     x_crawlera_profile := None;
     x_crawlera_wait := None |}.

(** The entries of [request.meta] this module reads or writes.  The deferred
    bind stored under ['defer_assign_crawlera_session'] is the bound method
    [self.assign_crawlera_session]; it is represented by its [self]. *)
Record Meta := {
  cookiejar : option key;
  no_crawlera_session : bool;
  defer_assign_crawlera_session : option RequestSession
}.

#[global] Instance Meta_eq_dec : EqDecision Meta.
Proof. solve_decision. Defined.

Record Request := {
  meta : Meta;
  headers : gmap string string
}.

#[global] Instance Request_eq_dec : EqDecision Request.
Proof. solve_decision. Defined.

(** A response carries its own headers; [response.meta] is the [meta] of the
    request that produced it. *)
Record Response := {
  response_request : Request;
  response_headers : gmap string string
}.

Definition response_meta (response : Response) : Meta :=
  meta (response_request response).

(** [CrawleraSessionMixinSpider]: the [OrderedDict] keeps insertion order, so
    it is an association list; [crawler_stats] is [spider.crawler.stats]. *)
Record Spider := {
  crawlera_sessions : list (key * token);
  locked_sessions : gset key;
  MAX_PARALLEL_CRAWLERA_SESSIONS : option Z;
  crawler_stats : gmap string Z
}.

(** The class-level initial values. *)
Definition new_spider (max : option Z) : Spider :=
  {| crawlera_sessions := [];
     locked_sessions := ∅;
     MAX_PARALLEL_CRAWLERA_SESSIONS := max;
     crawler_stats := ∅ |}.

(** Outcome of a call: the value returned or the exception raised, in both
    cases with the spider and the request as the call left them. *)
Inductive outcome (A : Type) :=
  | Return (a : A) (spider : Spider) (request : Request)
  | Raise (e : exn) (spider : Spider) (request : Request).
Arguments Return {A} a spider request.
Arguments Raise {A} e spider request.

Definition outcome_spider {A} (o : outcome A) : Spider :=
  match o with Return _ s _ | Raise _ s _ => s end.

Definition outcome_request {A} (o : outcome A) : Request :=
  match o with Return _ _ r | Raise _ _ r => r end.

(** ** Dictionary and set primitives *)

Module OrderedDict.

Definition keys (d : list (key * token)) : list key := d.*1.

(** [d[k]]: the value of the first (and only) entry for [k]. *)
Fixpoint get (k : key) (d : list (key * token)) : option token :=
  match d with
  | [] => None
  | (k', v) :: d' => if decide (k' = k) then Some v else get k d'
  end.

(** [d.setdefault(k, v)]: a new key is appended, a present key is left
    alone. *)
Definition setdefault (k : key) (v : token) (d : list (key * token))
  : list (key * token) :=
  match get k d with
  | Some _ => d
  | None => d ++ [(k, v)]
  end.

End OrderedDict.

(** [random.choice(seq)] with the random index drawn as [rnd]. *)
Definition random_choice {A} (rnd : nat) (seq : list A) : option A :=
  seq !! (rnd mod length seq)%nat.

(** Truth value of [request.meta.get('cookiejar')]. *)
Definition truthy (v : option key) : bool :=
  match v with
  | Some k => negb (String.eqb k "")
  | None => false
  end.

(** Field updates of the mutable objects. *)
Definition set_cookiejar (k : key) (request : Request) : Request :=
  {| meta := {| cookiejar := Some k;
                no_crawlera_session := no_crawlera_session (meta request);
                defer_assign_crawlera_session :=
                  defer_assign_crawlera_session (meta request) |};
     headers := headers request |}.

Definition pop_defer (request : Request) : Request :=
  {| meta := {| cookiejar := cookiejar (meta request);
                no_crawlera_session := no_crawlera_session (meta request);
                defer_assign_crawlera_session := None |};
     headers := headers request |}.

Definition set_header (name value : string) (request : Request) : Request :=
  {| meta := meta request; headers := <[name := value]> (headers request) |}.

Definition lock (k : key) (spider : Spider) : Spider :=
  {| crawlera_sessions := crawlera_sessions spider;
     locked_sessions := locked_sessions spider ∪ {[k]};
     MAX_PARALLEL_CRAWLERA_SESSIONS := MAX_PARALLEL_CRAWLERA_SESSIONS spider;
     crawler_stats := crawler_stats spider |}.

Definition discard (k : key) (spider : Spider) : Spider :=
  {| crawlera_sessions := crawlera_sessions spider;
     locked_sessions := locked_sessions spider ∖ {[k]};
     MAX_PARALLEL_CRAWLERA_SESSIONS := MAX_PARALLEL_CRAWLERA_SESSIONS spider;
     crawler_stats := crawler_stats spider |}.

Definition record_session (k : key) (t : token) (spider : Spider) : Spider :=
  {| crawlera_sessions := OrderedDict.setdefault k t (crawlera_sessions spider);
     locked_sessions := locked_sessions spider;
     MAX_PARALLEL_CRAWLERA_SESSIONS := MAX_PARALLEL_CRAWLERA_SESSIONS spider;
     crawler_stats := crawler_stats spider |}.

(** [stats.inc_value(name)]: count 1, start 0. *)
Definition inc_value (name : string) (spider : Spider) : Spider :=
  {| crawlera_sessions := crawlera_sessions spider;
     locked_sessions := locked_sessions spider;
     MAX_PARALLEL_CRAWLERA_SESSIONS := MAX_PARALLEL_CRAWLERA_SESSIONS spider;
     crawler_stats :=
       <[name := default 0 (crawler_stats spider !! name) + 1]>
         (crawler_stats spider) |}.

(** ** CrawleraSessionMixinSpider *)

Definition can_add_new_sessions (spider : Spider) : bool :=
  match MAX_PARALLEL_CRAWLERA_SESSIONS spider with
  | None => true
  | Some max => bool_decide (Z.of_nat (length (crawlera_sessions spider)) < max)
  end.

Definition available_sessions (spider : Spider) : list key :=
  filter (λ k, k ∉ locked_sessions spider)
         (OrderedDict.keys (crawlera_sessions spider)).

(** ** RequestSession *)

Definition _adapt_request (self : RequestSession) (request : Request) : Request :=
  let r1 := match x_crawlera_cookies self with
            | Some v => set_header "X-Crawlera-Cookies" v request
            | None => request
            end in
  let r2 := match x_crawlera_profile self with
            | Some v => set_header "X-Crawlera-Profile" v r1
            | None => r1
            end in
  match x_crawlera_wait self with
  | Some v => set_header "X-Crawlera-Wait" v r2
  | None => r2
  end.

(** [uuid] is the value of [str(uuid.uuid1())], drawn whether or not it is
    used. *)
Definition init_request (self : RequestSession) (uuid : key) (request : Request)
  : Request :=
  let r1 := match cookiejar (meta request) with
            | None => set_cookiejar uuid request
            | Some _ => request
            end in
  let r2 := if crawlera_session self
            then set_header "X-Crawlera-Session" "create" r1
            else r1 in
  _adapt_request self r2.

(** Lines 107-121: the part of [assign_crawlera_session] after the
    [cookiejar is None] block. *)
Definition assign_with (self : RequestSession) (spider : Spider)
    (request : Request) (jar : option key) : outcome bool :=
  match jar with
  | None => Return false spider request
  | Some jar =>
      let finish (r1 : Request) : outcome bool :=
        let r2 := _adapt_request self r1 in
        match cookiejar (meta r2) with
        | None => Return true (lock jar spider) (set_cookiejar jar r2)
        | Some _ => Raise WrongSessionError spider r2
        end in
      if crawlera_session self
         && bool_decide (headers request !! "X-Crawlera-Session" = None)
      then match OrderedDict.get jar (crawlera_sessions spider) with
           | Some session =>
               finish (set_header "X-Crawlera-Session" session request)
           | None => Raise KeyError spider request
           end
      else finish request
  end.

Definition assign_crawlera_session (self : RequestSession) (uuid : key)
    (rnd : nat) (spider : Spider) (request : Request) (jar : option key)
  : outcome bool :=
  match jar with
  | None =>
      if can_add_new_sessions spider then
        let r := init_request self uuid request in
        match cookiejar (meta r) with
        | Some k => Return true (lock k spider) r
        | None => Raise KeyError spider r
        end
      else
        assign_with self spider request
          (match available_sessions spider with
           | [] => None
           | _ :: _ => random_choice rnd (available_sessions spider)
           end)
  | Some _ => assign_with self spider request jar
  end.

(** [follow_session]'s wrapper up to its loop: the cookiejar of the response
    is read and the session header of the response recorded for it. *)
Definition follow_session_enter (spider : Spider) (response : Response)
  : exn + (key * Spider) :=
  match cookiejar (response_meta response) with
  | None => inl SessionNotInitializedError
  | Some jar =>
      match response_headers response !! "X-Crawlera-Session" with
      | None => inl KeyError
      | Some session => inr (jar, record_session jar session spider)
      end
  end.

(** The loop of [follow_session] over the requests the wrapped callback
    yields; an exception ends the generator. *)
Fixpoint follow_session_loop (self : RequestSession) (jar : key)
    (spider : Spider) (objs : list Request) : exn + (Spider * list Request) :=
  match objs with
  | [] => inr (spider, [])
  | obj :: objs' =>
      if no_crawlera_session (meta obj) then
        match follow_session_loop self jar spider objs' with
        | inr (s, out) => inr (s, obj :: out)
        | inl e => inl e
        end
      else
        match assign_crawlera_session self "" 0%nat spider obj (Some jar) with
        | Return _ s obj' =>
            match follow_session_loop self jar s objs' with
            | inr (s', out) => inr (s', obj' :: out)
            | inl e => inl e
            end
        | Raise e _ _ => inl e
        end
  end.

(** [unlock_session]'s wrapper before it delegates to the callback. *)
Definition unlock_session (spider : Spider) (response : Response)
  : exn + Spider :=
  match cookiejar (response_meta response) with
  | None => inl KeyError
  | Some jar => inr (discard jar spider)
  end.

(** ** CrawleraSessionCookiesMiddleware *)

Definition _can_enqueue_request (spider : Spider) (request : Request) : bool :=
  if truthy (cookiejar (meta request)) then true
  else if can_add_new_sessions spider then true
  else match available_sessions spider with
       | [] => false
       | _ :: _ => true
       end.

(** [list.remove(x)] for an [x] known to be in the list: the first element
    equal to [x] goes.  Python compares requests by identity; [_next_request]
    removes the first eligible request of the list, and no request before
    it can be equal to it, being ineligible, so comparing the fields removes
    the same element. *)
Fixpoint list_remove_first (x : Request) (l : list Request) : list Request :=
  match l with
  | [] => []
  | y :: l' => if decide (y = x) then l' else y :: list_remove_first x l'
  end.

(** [_next_request]: the scheduler's own [next_request] pops the head of
    [upstream].  Result: the request returned (or [None]), the retained
    requests and the upstream queue afterwards. *)
Definition _next_request (spider : Spider) (retained_requests : list Request)
    (upstream : list Request)
  : option Request * list Request * list Request :=
  match List.find (_can_enqueue_request spider) retained_requests with
  | Some request =>
      (Some request, list_remove_first request retained_requests, upstream)
  | None =>
      match upstream with
      | [] => (None, retained_requests, [])
      | new_request :: upstream' =>
          if _can_enqueue_request spider new_request
          then (Some new_request, retained_requests, upstream')
          else (None, retained_requests ++ [new_request], upstream')
      end
  end.

(** [process_request].  [super_process_request] is scrapy's
    [CookiesMiddleware.process_request], which works on the request only. *)
Definition process_request (super_process_request : Request → Request)
    (uuid : key) (rnd : nat) (spider : Spider) (request : Request)
  : outcome unit :=
  match defer_assign_crawlera_session (meta request) with
  | Some self =>
      match assign_crawlera_session self uuid rnd spider request None with
      | Return true s r => Return tt s (super_process_request (pop_defer r))
      | Return false s r =>
          Raise IgnoreRequest
            (inc_value "crawlera_sessions/no_unlocked_sessions" s) r
      | Raise e s r => Raise e s r
      end
  | None => Return tt spider (super_process_request request)
  end.

(** [process_response], as far as the spider is concerned; [received] is
    [response.headers]. *)
Definition process_response (spider : Spider) (request : Request)
    (received : gmap string string) : exn + Spider :=
  match received !! "X-Crawlera-Session" with
  | Some session =>
      match cookiejar (meta request) with
      | Some jar => inr (record_session jar session spider)
      | None => inl KeyError
      end
  | None => inr spider
  end.

(** ** Sequences of pool and lock operations *)

Inductive event :=
  | Bind (self : RequestSession) (uuid : key) (rnd : nat) (request : Request)
         (jar : option key)
  | Recorded (request : Request) (received : gmap string string)
  | Unlock (response : Response).

(** An operation that raises leaves the spider as it was when it raised. *)
Definition step (spider : Spider) (e : event) : Spider :=
  match e with
  | Bind self uuid rnd request jar =>
      outcome_spider (assign_crawlera_session self uuid rnd spider request jar)
  | Recorded request hs =>
      match process_response spider request hs with
      | inr s => s
      | inl _ => spider
      end
  | Unlock response =>
      match unlock_session spider response with
      | inr s => s
      | inl _ => spider
      end
  end.

Definition run (spider : Spider) (trace : list event) : Spider :=
  foldl step spider trace.

(** The keys of the pool as a set. *)
Definition pool_keys (spider : Spider) : gset key :=
  list_to_set (OrderedDict.keys (crawlera_sessions spider)).

(** The keys an operation locks without having read them from the pool: the
    key of a request bound as a new session, and an explicit cookiejar bound
    without token lookup. *)
Definition unrecorded_lock (spider : Spider) (e : event) : gset key :=
  match e with
  | Bind self uuid _ request None =>
      if can_add_new_sessions spider
      then {[ default uuid (cookiejar (meta request)) ]}
      else ∅
  | Bind self _ _ request (Some jar) =>
      if crawlera_session self
         && bool_decide (headers request !! "X-Crawlera-Session" = None)
      then ∅
      else {[ jar ]}
  | Recorded _ _ | Unlock _ => ∅
  end.

Fixpoint pending (spider : Spider) (trace : list event) : gset key :=
  match trace with
  | [] => ∅
  | e :: trace' => unrecorded_lock spider e ∪ pending (step spider e) trace'
  end.

(** ** Concrete requests and runs *)

Definition plain_request : Request :=
  {| meta := {| cookiejar := None;
                no_crawlera_session := false;
                defer_assign_crawlera_session := None |};
     headers := ∅ |}.

Definition session_header (t : token) : gmap string string :=
  {[ "X-Crawlera-Session" := t ]}.

(** Two requests bound before either response arrives, capacity 1. *)
Definition bound1 : outcome bool :=
  assign_crawlera_session default_session "k1" 0%nat
    (new_spider (Some 1)) plain_request None.

Definition bound2 : outcome bool :=
  assign_crawlera_session default_session "k2" 0%nat
    (outcome_spider bound1) plain_request None.

Definition two_pending_binds : list event :=
  [ Bind default_session "k1" 0%nat plain_request None;
    Bind default_session "k2" 0%nat plain_request None;
    Recorded (outcome_request bound1) (session_header "s1");
    Recorded (outcome_request bound2) (session_header "s2") ].

(** Three requests bound in a row, capacity 2, no response in between; then
    the first session is unlocked and the third request bound again. *)
Definition response_to (request : Request) (t : token) : Response :=
  {| response_request := request; response_headers := session_header t |}.

Definition cap2_bound1 : outcome bool :=
  assign_crawlera_session default_session "k1" 0%nat
    (new_spider (Some 2)) plain_request None.

Definition cap2_bound2 : outcome bool :=
  assign_crawlera_session default_session "k2" 0%nat
    (outcome_spider cap2_bound1) plain_request None.

Definition cap2_bound3 : outcome bool :=
  assign_crawlera_session default_session "k3" 0%nat
    (outcome_spider cap2_bound2) plain_request None.

Definition cap2_rebound3 : outcome bool :=
  assign_crawlera_session default_session "k4" 0%nat
    (step (outcome_spider cap2_bound3)
       (Unlock (response_to (outcome_request cap2_bound1) "s1")))
    (outcome_request cap2_bound3) None.

(** A request that already carries a cookiejar. *)
Definition request_with_jar (k : key) : Request :=
  set_cookiejar k plain_request.

(** A pool whose entry for ["k1"] is the string ["create"]. *)
Definition sentinel_spider : Spider :=
  record_session "k1" "create" (new_spider None).

(** A request whose bind is deferred to the downloader, and a spider that
    can neither add nor reuse a session. *)
Definition deferred_request : Request :=
  {| meta := {| cookiejar := None;
                no_crawlera_session := false;
                defer_assign_crawlera_session := Some default_session |};
     headers := ∅ |}.

Definition no_session_spider : Spider := new_spider (Some 0).

(** A session object that sends no session header. *)
Definition headerless_session : RequestSession :=
  {| crawlera_session := false;
     x_crawlera_cookies := Some "disable";
     x_crawlera_profile := None;
     x_crawlera_wait := None |}.

(** ** Successive pulls through the gate *)

(** Between two calls of [_next_request] the rest of the program may change
    the spider and the scheduler's queue at will, so every call comes with
    the spider and the queue it finds.  Result: for each call the request
    returned and the queue it left, and the requests retained at the end. *)
Fixpoint pulls (envs : list (Spider * list Request))
    (retained_requests : list Request)
  : list (option Request * list Request) * list Request :=
  match envs with
  | [] => ([], retained_requests)
  | (spider, upstream) :: envs' =>
      let '(returned, retained', upstream') :=
        _next_request spider retained_requests upstream in
      let '(out, final) := pulls envs' retained' in
      ((returned, upstream') :: out, final)
  end.

(** A request on which no session decision has been made. *)
Definition unbound (request : Request) : Prop :=
  truthy (cookiejar (meta request)) = false.

(** ** The decorators as whole generators *)

(** What a callback yields: a request, or any other object (an item). *)
Inductive yielded :=
  | YieldRequest (request : Request)
  | YieldItem (item : string).

(** The headers a bind may write. *)
Definition crawlera_header_names : list string :=
  [ "X-Crawlera-Session"; "X-Crawlera-Cookies"; "X-Crawlera-Profile";
    "X-Crawlera-Wait" ].

(** The generator of [follow_session] after its prologue, run to its end or
    to the first exception, with no other callback running in between: the
    spider afterwards, the objects yielded, and the exception that ended
    the generator, if any. *)
Fixpoint follow_session_yield (self : RequestSession) (jar : key)
    (spider : Spider) (objs : list yielded)
  : Spider * list yielded * option exn :=
  match objs with
  | [] => (spider, [], None)
  | YieldItem item :: objs' =>
      let '(s, out, e) := follow_session_yield self jar spider objs' in
      (s, YieldItem item :: out, e)
  | YieldRequest obj :: objs' =>
      if no_crawlera_session (meta obj) then
        let '(s, out, e) := follow_session_yield self jar spider objs' in
        (s, YieldRequest obj :: out, e)
      else
        match assign_crawlera_session self "" 0%nat spider obj (Some jar) with
        | Return _ s obj' =>
            let '(s', out, e) := follow_session_yield self jar s objs' in
            (s', YieldRequest obj' :: out, e)
        | Raise e s _ => (s, [], Some e)
        end
  end.

(** [follow_session]: [objs] is what the wrapped callback yields. *)
Definition follow_session (self : RequestSession) (spider : Spider)
    (response : Response) (objs : list yielded)
  : Spider * list yielded * option exn :=
  match follow_session_enter spider response with
  | inl e => (spider, [], Some e)
  | inr (jar, s) => follow_session_yield self jar s objs
  end.

(** [init_start_requests]: every start request, paired with the uuid drawn
    for it, goes through [init_request].  The spider is only asked for its
    [crawlera_sessions] attribute, which a [Spider] always has. *)
Definition init_start_requests (self : RequestSession)
    (requests : list (key * Request)) : list Request :=
  (λ ur, init_request self ur.1 ur.2) <$> requests.

(** [defer_assign_session]: every request yielded gets the bind stored in
    its meta; other objects pass. *)
Definition set_defer (self : RequestSession) (request : Request) : Request :=
  {| meta := {| cookiejar := cookiejar (meta request);
                no_crawlera_session := no_crawlera_session (meta request);
                defer_assign_crawlera_session := Some self |};
     headers := headers request |}.

Definition defer_assign_session (self : RequestSession) (objs : list yielded)
  : list yielded :=
  (λ obj, match obj with
          | YieldRequest r => YieldRequest (set_defer self r)
          | YieldItem i => YieldItem i
          end) <$> objs.

(** ** CrawleraSessionRedirectMiddleware *)

(** [process_response]: [obj] is what scrapy's [RedirectMiddleware] returns,
    the request of the next hop or the response itself. *)
Definition redirect_process_response (obj : Request + Response)
    (response : Response) : Request + Response :=
  match obj with
  | inl next =>
      match response_headers response !! "X-Crawlera-Session" with
      | Some session => inl (set_header "X-Crawlera-Session" session next)
      | None => inl next
      end
  | inr _ => obj
  end.

(** ** Shutdown and settings *)

(** [spider_closed]: whether its assertion holds. *)
Definition spider_closed (retained_requests : list Request) : bool :=
  match retained_requests with
  | [] => true
  | _ :: _ => false
  end.

(** The two settings [update_settings] works on, middleware path to
    position. *)
Record Settings := {
  DOWNLOADER_MIDDLEWARES : gmap string Z;
  DOWNLOADER_MIDDLEWARES_BASE : gmap string Z
}.

Definition stock_redirect : string :=
  "scrapy.downloadermiddlewares.redirect.RedirectMiddleware".
Definition stock_cookies : string :=
  "scrapy.downloadermiddlewares.cookies.CookiesMiddleware".
Definition session_redirect : string :=
  "crawlera_session.CrawleraSessionRedirectMiddleware".
Definition session_cookies : string :=
  "crawlera_session.CrawleraSessionCookiesMiddleware".

(** One [pop] from the base followed by the assignment of the position. *)
Definition swap_middleware (stock own : string) (settings : Settings)
  : option Settings :=
  match DOWNLOADER_MIDDLEWARES_BASE settings !! stock with
  | Some pos =>
      Some {| DOWNLOADER_MIDDLEWARES :=
                <[own := pos]> (DOWNLOADER_MIDDLEWARES settings);
              DOWNLOADER_MIDDLEWARES_BASE :=
                delete stock (DOWNLOADER_MIDDLEWARES_BASE settings) |}
  | None => None
  end.

(** [update_settings] after the call to the parent class.  A [pop] of a
    missing path raises [KeyError] and leaves the settings as the statements
    before it made them. *)
Definition update_settings (settings : Settings) : exn * Settings + Settings :=
  match swap_middleware stock_redirect session_redirect settings with
  | None => inl (KeyError, settings)
  | Some s1 =>
      match swap_middleware stock_cookies session_cookies s1 with
      | None => inl (KeyError, s1)
      | Some s2 => inr s2
      end
  end.

(** ** One bind at a time *)

(** A request is bound and, when the bind succeeded, its response records
    the token [t] before anything else happens. *)
Definition bind_then_record (self : RequestSession) (uuid : key) (rnd : nat)
    (t : token) (request : Request) (spider : Spider) : Spider :=
  match assign_crawlera_session self uuid rnd spider request None with
  | Return true s r =>
      match process_response s r (session_header t) with
      | inr s' => s'
      | inl _ => s
      end
  | Return false s _ | Raise _ s _ => s
  end.

Inductive exchange :=
  | Exchange (self : RequestSession) (uuid : key) (rnd : nat) (t : token)
             (request : Request)
  | Release (response : Response).

Definition exchange_step (spider : Spider) (x : exchange) : Spider :=
  match x with
  | Exchange self uuid rnd t request =>
      bind_then_record self uuid rnd t request spider
  | Release response => step spider (Unlock response)
  end.

(** A full pool of one unlocked session. *)
Definition one_session_spider : Spider :=
  {| crawlera_sessions := [("k1", "s1")];
     locked_sessions := ∅;
     MAX_PARALLEL_CRAWLERA_SESSIONS := Some 1;
     crawler_stats := ∅ |}.

Definition reuse_bound : outcome bool :=
  assign_crawlera_session default_session "u1" 0%nat one_session_spider
    plain_request None.

(** [untouched r r']: outside the four Crawlera headers, the cookiejar
    apart, [r'] is [r]. *)
Definition untouched (r r' : Request) : Prop :=
  (∀ name, name ∉ crawlera_header_names →
           headers r' !! name = headers r !! name)
  ∧ no_crawlera_session (meta r') = no_crawlera_session (meta r)
  ∧ defer_assign_crawlera_session (meta r')
    = defer_assign_crawlera_session (meta r).

(** How [follow_session] with cookiejar [jar] relates an object yielded by
    the callback to the object it yields itself. *)
Definition sticky (jar : key) (obj out : yielded) : Prop :=
  match obj, out with
  | YieldItem i, YieldItem i' => i = i'
  | YieldRequest r, YieldRequest r' =>
      if no_crawlera_session (meta r) then r' = r
      else cookiejar (meta r) = None
           ∧ cookiejar (meta r') = Some jar
           ∧ untouched r r'
  | _, _ => False
  end.

(** A request that is not exempt and already has a cookiejar. *)
Definition carries_cookiejar (obj : yielded) : bool :=
  match obj with
  | YieldRequest r =>
      negb (no_crawlera_session (meta r))
      && bool_decide (is_Some (cookiejar (meta r)))
  | YieldItem _ => false
  end.

(** Scrapy's defaults for the two middlewares. *)
Definition stock_settings : Settings :=
  {| DOWNLOADER_MIDDLEWARES := ∅;
     DOWNLOADER_MIDDLEWARES_BASE :=
       {[ stock_redirect := 600; stock_cookies := 700 ]} |}.

(** ** Requests arriving at a blocked gate *)








(** ** Basic facts about the primitives *)

Lemma get_app_new k v d :
  OrderedDict.get k d = None → OrderedDict.get k (d ++ [(k, v)]) = Some v.
Proof.
  induction d as [|[k' v'] d IH]; simpl.
  - intros _. by rewrite decide_True.
  - destruct (decide (k' = k)); [done | exact IH].
Qed.

Lemma get_is_Some k d :
  k ∈ OrderedDict.keys d → is_Some (OrderedDict.get k d).
Proof.
  unfold OrderedDict.keys.
  induction d as [|[k' v'] d IH]; simpl.
  - by intros ?%elem_of_nil.
  - intros [->|Hin]%elem_of_cons.
    + rewrite decide_True; eauto.
    + destruct (decide (k' = k)); eauto.
Qed.

Lemma get_Some_keys k v d :
  OrderedDict.get k d = Some v → k ∈ OrderedDict.keys d.
Proof.
  unfold OrderedDict.keys.
  induction d as [|[k' v'] d IH]; simpl; [done|].
  destruct (decide (k' = k)) as [->|]; intros Hget; apply elem_of_cons;
    [by left | right; by apply IH].
Qed.

Lemma keys_setdefault k v d x :
  x ∈ OrderedDict.keys d → x ∈ OrderedDict.keys (OrderedDict.setdefault k v d).
Proof.
  unfold OrderedDict.setdefault, OrderedDict.keys.
  destruct (OrderedDict.get k d); [done|].
  rewrite fmap_app. intros Hx. apply elem_of_app. by left.
Qed.

Lemma random_choice_elem {A} rnd (seq : list A) :
  seq ≠ [] → ∃ x, random_choice rnd seq = Some x ∧ x ∈ seq.
Proof.
  intros Hne. unfold random_choice.
  assert (Hlt : (rnd mod length seq < length seq)%nat).
  { apply Nat.mod_upper_bound. destruct seq; [done | simpl; lia]. }
  apply lookup_lt_is_Some_2 in Hlt as [x Hx].
  exists x. split; [done|]. by eapply list_elem_of_lookup_2.
Qed.

Lemma available_sessions_in_pool spider k :
  k ∈ available_sessions spider →
  k ∈ OrderedDict.keys (crawlera_sessions spider) ∧ k ∉ locked_sessions spider.
Proof.
  unfold available_sessions. rewrite list_elem_of_filter. tauto.
Qed.

Lemma cookiejar_set_header n v r :
  cookiejar (meta (set_header n v r)) = cookiejar (meta r).
Proof. done. Qed.

Lemma cookiejar_adapt self r :
  cookiejar (meta (_adapt_request self r)) = cookiejar (meta r).
Proof.
  unfold _adapt_request.
  destruct (x_crawlera_cookies self), (x_crawlera_profile self),
    (x_crawlera_wait self); done.
Qed.

Lemma session_header_adapt self r :
  headers (_adapt_request self r) !! "X-Crawlera-Session"
  = headers r !! "X-Crawlera-Session".
Proof.
  unfold _adapt_request.
  destruct (x_crawlera_cookies self), (x_crawlera_profile self),
    (x_crawlera_wait self); simpl;
    repeat (rewrite lookup_insert_ne; [|done]); done.
Qed.

Lemma cookiejar_init_request self uuid r :
  cookiejar (meta (init_request self uuid r))
  = Some (default uuid (cookiejar (meta r))).
Proof.
  unfold init_request. rewrite cookiejar_adapt.
  destruct (crawlera_session self), (cookiejar (meta r)) eqn:E; simpl;
    by rewrite ?E.
Qed.

(** A bind that returns [False] has touched neither the spider nor the
    request. *)
Lemma assign_false_unchanged self uuid rnd spider request jar s r :
  assign_crawlera_session self uuid rnd spider request jar = Return false s r →
  s = spider ∧ r = request.
Proof.
  assert (Hwith : ∀ j, assign_with self spider request j = Return false s r →
                       s = spider ∧ r = request).
  { intros [j|]; simpl; [|by intros [= <- <-]].
    destruct (crawlera_session self && _);
      [destruct (OrderedDict.get j _); [|done]|];
      rewrite cookiejar_adapt; simpl;
      destruct (cookiejar (meta request)); done. }
  unfold assign_crawlera_session. destruct jar as [j|]; [apply Hwith|].
  destruct (can_add_new_sessions spider); [|apply Hwith].
  rewrite cookiejar_init_request. done.
Qed.

(** The three ways a bind without explicit cookiejar ends, for a request
    that carries no cookiejar yet. *)
Lemma bind_new_session self uuid rnd spider request :
  can_add_new_sessions spider = true →
  assign_crawlera_session self uuid rnd spider request None
  = Return true (lock (default uuid (cookiejar (meta request))) spider)
      (init_request self uuid request).
Proof.
  intros Hcan. unfold assign_crawlera_session.
  by rewrite Hcan, cookiejar_init_request.
Qed.

Lemma bind_no_session self uuid rnd spider request :
  can_add_new_sessions spider = false →
  available_sessions spider = [] →
  assign_crawlera_session self uuid rnd spider request None
  = Return false spider request.
Proof.
  intros Hcan Hav. unfold assign_crawlera_session. by rewrite Hcan, Hav.
Qed.

Lemma bind_reuse_only_session self uuid rnd spider request j t :
  can_add_new_sessions spider = false →
  available_sessions spider = [j] →
  OrderedDict.get j (crawlera_sessions spider) = Some t →
  crawlera_session self = true →
  headers request !! "X-Crawlera-Session" = None →
  cookiejar (meta request) = None →
  assign_crawlera_session self uuid rnd spider request None
  = Return true (lock j spider)
      (set_cookiejar j
         (_adapt_request self (set_header "X-Crawlera-Session" t request))).
Proof.
  intros Hcan Hav Hget Hcs Hhd Hjar. unfold assign_crawlera_session.
  rewrite Hcan, Hav. unfold random_choice. simpl.
  rewrite Hcs, Hhd, Hget. simpl.
  by rewrite cookiejar_adapt, cookiejar_set_header, Hjar.
Qed.

(** ** Capacity *)

(** C1 (the code at the failing input).  With [MAX_PARALLEL_CRAWLERA_SESSIONS
    = 1], two binds issued before either response arrives both start a new
    session, and once the two responses have recorded their tokens the pool
    holds two entries. *)
Theorem pool_exceeds_capacity_after_pending_binds :
  bound1 = Return true (lock "k1" (new_spider (Some 1)))
             (init_request default_session "k1" plain_request)
  ∧ bound2 = Return true (lock "k2" (outcome_spider bound1))
               (init_request default_session "k2" plain_request)
  ∧ MAX_PARALLEL_CRAWLERA_SESSIONS (run (new_spider (Some 1)) two_pending_binds)
    = Some 1
  ∧ crawlera_sessions (run (new_spider (Some 1)) two_pending_binds)
    = [("k1", "s1"); ("k2", "s2")].
Proof. repeat split; vm_compute; reflexivity. Qed.

(** ** Unlocking *)

(** C10.  Unlocking a key that is not locked changes nothing and raises
    nothing, and unlocking a second time gives what unlocking once gave. *)
Theorem unlock_session_idempotent spider response k :
  cookiejar (response_meta response) = Some k →
  (k ∉ locked_sessions spider → unlock_session spider response = inr spider)
  ∧ ∃ s, unlock_session spider response = inr s
         ∧ unlock_session s response = inr s.
Proof.
  intros Hk. unfold unlock_session. rewrite Hk. split.
  - intros Hnot. f_equal. destruct spider as [pool locked max st].
    unfold discard; simpl in *. f_equal.
    apply difference_disjoint_L, disjoint_singleton_r, Hnot.
  - eexists. split; [reflexivity|]. f_equal.
    unfold discard; simpl. f_equal.
    apply difference_disjoint_L, disjoint_singleton_r.
    rewrite elem_of_difference, elem_of_singleton. tauto.
Qed.

Lemma unlock_session_idempotent_witness :
  unlock_session (new_spider None) (response_to (request_with_jar "k1") "s1")
  = inr (new_spider None).
Proof.
  apply (unlock_session_idempotent (new_spider None)
           (response_to (request_with_jar "k1") "s1") "k1").
  - reflexivity.
  - apply not_elem_of_empty.
Defined.

(** ** Recording tokens *)

(** C5 as stated fails: a pool entry holding the string ["create"] is not
    overwritten by the token of a response. *)
Lemma recorded_sentinel_is_kept :
  OrderedDict.get "k1" (crawlera_sessions sentinel_spider) = Some "create"
  ∧ process_response sentinel_spider (request_with_jar "k1")
      (session_header "abc123") = inr sentinel_spider.
Proof. split; vm_compute; reflexivity. Qed.

(** C5, amended.  A response's token is stored for the cookiejar of its
    request when the pool has no entry for it, and a lookup then gives that
    token; when the pool has an entry, whatever it holds, nothing changes.
    [follow_session] records the token in the same way. *)
Theorem process_response_setdefault spider request k t hs :
  cookiejar (meta request) = Some k →
  hs !! "X-Crawlera-Session" = Some t →
  ∃ s, process_response spider request hs = inr s
       ∧ follow_session_enter spider
           {| response_request := request; response_headers := hs |}
         = inr (k, s)
       ∧ locked_sessions s = locked_sessions spider
       ∧ match OrderedDict.get k (crawlera_sessions spider) with
         | None => OrderedDict.get k (crawlera_sessions s) = Some t
         | Some _ => s = spider
         end.
Proof.
  intros Hk Ht. unfold process_response, follow_session_enter, response_meta.
  simpl. rewrite Ht, Hk.
  eexists. split; [reflexivity|]. split; [reflexivity|]. split; [done|].
  unfold record_session, OrderedDict.setdefault; simpl.
  destruct (OrderedDict.get k (crawlera_sessions spider)) eqn:Hget.
  - by destruct spider.
  - by apply get_app_new.
Qed.

Lemma process_response_setdefault_witness :
  ∃ s, process_response (new_spider None) (request_with_jar "k1")
         (session_header "abc123") = inr s
       ∧ follow_session_enter (new_spider None)
           (response_to (request_with_jar "k1") "abc123")
         = inr ("k1", s)
       ∧ locked_sessions s = ∅
       ∧ OrderedDict.get "k1" (crawlera_sessions s) = Some "abc123".
Proof.
  apply (process_response_setdefault (new_spider None)
           (request_with_jar "k1") "k1" "abc123" (session_header "abc123"));
    reflexivity.
Defined.

(** ** init_request *)

(** C8 as stated fails: a request that already has a cookiejar keeps it, and
    a session object built with [crawlera_session=False] sets no session
    header. *)
Lemma init_request_keeps_cookiejar :
  cookiejar (meta (init_request default_session "u1" (request_with_jar "k0")))
  = Some "k0"
  ∧ headers (init_request headerless_session "u1" plain_request)
      !! "X-Crawlera-Session" = None.
Proof. split; vm_compute; reflexivity. Qed.

(** C8, amended.  [init_request] reads neither the pool nor the capacity
    bound.  The request's cookiejar afterwards is the one it had, or the
    fresh uuid when it had none; the session header is ["create"] when
    [crawlera_session] is on and is left as it was otherwise. *)
Theorem init_request_spec self uuid request :
  cookiejar (meta (init_request self uuid request))
  = Some (default uuid (cookiejar (meta request)))
  ∧ headers (init_request self uuid request) !! "X-Crawlera-Session"
    = (if crawlera_session self then Some "create"
       else headers request !! "X-Crawlera-Session").
Proof.
  split; [apply cookiejar_init_request|].
  unfold init_request. rewrite session_header_adapt.
  destruct (crawlera_session self), (cookiejar (meta request)); simpl;
    by rewrite ?lookup_insert_eq.
Qed.

(** ** Binding a request that already has a cookiejar *)

(** C4 as stated fails: when a new session can be added, a request that
    already carries cookiejar ["k0"] is bound without error; the fresh uuid
    ["u1"] is dropped, ["k0"] stays on the request and is locked. *)
Lemma bind_keeps_existing_cookiejar :
  assign_crawlera_session default_session "u1" 0%nat (new_spider None)
    (request_with_jar "k0") None
  = Return true (lock "k0" (new_spider None))
      (init_request default_session "u1" (request_with_jar "k0"))
  ∧ cookiejar (meta (init_request default_session "u1" (request_with_jar "k0")))
    = Some "k0".
Proof. split; vm_compute; reflexivity. Qed.

Lemma assign_with_bound_request self spider request j k :
  cookiejar (meta request) = Some k →
  is_Some (OrderedDict.get j (crawlera_sessions spider)) →
  ∃ r, assign_with self spider request (Some j)
       = Raise WrongSessionError spider r
       ∧ cookiejar (meta r) = Some k.
Proof.
  intros Hk [t Ht]. simpl. rewrite Ht.
  destruct (crawlera_session self && _); eexists;
    rewrite cookiejar_adapt; simpl; rewrite Hk;
    (split; [reflexivity|]); by rewrite cookiejar_adapt.
Qed.

(** C4, amended.  For a request that already carries a cookiejar [k]: a bind
    with an explicit cookiejar that has a token in the pool, and a bind that
    reuses an available session, raise [WrongSessionError] whether or not the
    key to assign differs from [k], with the spider unchanged and [k] still
    on the request; a bind that starts a new session raises nothing, keeps
    [k] on the request, locks [k] and returns [True]. *)
Theorem assign_request_with_cookiejar self uuid rnd spider request jar k :
  cookiejar (meta request) = Some k →
  (∀ j, jar = Some j → is_Some (OrderedDict.get j (crawlera_sessions spider))) →
  match jar with
  | Some _ =>
      ∃ r, assign_crawlera_session self uuid rnd spider request jar
           = Raise WrongSessionError spider r
           ∧ cookiejar (meta r) = Some k
  | None =>
      if can_add_new_sessions spider then
        assign_crawlera_session self uuid rnd spider request jar
        = Return true (lock k spider) (init_request self uuid request)
        ∧ cookiejar (meta (init_request self uuid request)) = Some k
      else
        match available_sessions spider with
        | _ :: _ =>
            ∃ r, assign_crawlera_session self uuid rnd spider request jar
                 = Raise WrongSessionError spider r
                 ∧ cookiejar (meta r) = Some k
        | [] =>
            assign_crawlera_session self uuid rnd spider request jar
            = Return false spider request
        end
  end.
Proof.
  intros Hk Hpool. destruct jar as [j|].
  - apply assign_with_bound_request; [done | by apply Hpool].
  - destruct (can_add_new_sessions spider) eqn:Hcan.
    + rewrite bind_new_session, cookiejar_init_request, Hk by done. done.
    + destruct (available_sessions spider) as [|a l] eqn:Hav.
      * by apply bind_no_session.
      * unfold assign_crawlera_session. rewrite Hcan, Hav.
        destruct (random_choice_elem rnd (a :: l)) as (j & -> & Hj); [done|].
        apply assign_with_bound_request; [done|].
        rewrite <- Hav in Hj. apply available_sessions_in_pool in Hj as [Hj _].
        by apply get_is_Some.
Qed.

Lemma assign_request_with_cookiejar_witness :
  ∃ r, assign_crawlera_session default_session "u1" 0%nat sentinel_spider
         (request_with_jar "k0") (Some "k1")
       = Raise WrongSessionError sentinel_spider r
       ∧ cookiejar (meta r) = Some "k0".
Proof.
  apply (assign_request_with_cookiejar default_session "u1" 0%nat
           sentinel_spider (request_with_jar "k0") (Some "k1") "k0").
  - reflexivity.
  - intros j [= <-]. vm_compute. eauto.
Defined.

(** ** Deferred binding in [process_request] *)

(** C7 as stated fails: when the deferred bind finds no session, the counter
    is incremented and [IgnoreRequest] is raised. *)
Lemma process_request_raises_IgnoreRequest :
  assign_crawlera_session default_session "u1" 0%nat no_session_spider
    deferred_request None
  = Return false no_session_spider deferred_request
  ∧ process_request id "u1" 0%nat no_session_spider deferred_request
    = Raise IgnoreRequest
        (inc_value "crawlera_sessions/no_unlocked_sessions" no_session_spider)
        deferred_request.
Proof. split; vm_compute; reflexivity. Qed.

(** C7, amended.  When the deferred bind returns [False], [process_request]
    increments the counter [crawlera_sessions/no_unlocked_sessions] by one
    and raises [IgnoreRequest], scrapy's signal to drop the request; the
    pool, the locked set and the request are as before, and no other
    exception is raised. *)
Theorem process_request_no_session super uuid rnd spider request self s r :
  defer_assign_crawlera_session (meta request) = Some self →
  assign_crawlera_session self uuid rnd spider request None
  = Return false s r →
  process_request super uuid rnd spider request
  = Raise IgnoreRequest
      (inc_value "crawlera_sessions/no_unlocked_sessions" spider) request
  ∧ crawlera_sessions
      (inc_value "crawlera_sessions/no_unlocked_sessions" spider)
    = crawlera_sessions spider
  ∧ locked_sessions
      (inc_value "crawlera_sessions/no_unlocked_sessions" spider)
    = locked_sessions spider
  ∧ crawler_stats (inc_value "crawlera_sessions/no_unlocked_sessions" spider)
      !! "crawlera_sessions/no_unlocked_sessions"
    = Some (default 0 (crawler_stats spider
                         !! "crawlera_sessions/no_unlocked_sessions") + 1).
Proof.
  intros Hdefer Hbind.
  destruct (assign_false_unchanged _ _ _ _ _ _ _ _ Hbind) as [-> ->].
  unfold process_request. rewrite Hdefer, Hbind.
  repeat split. simpl. apply lookup_insert_eq.
Qed.

Lemma process_request_no_session_witness :
  process_request id "u1" 0%nat no_session_spider deferred_request
  = Raise IgnoreRequest
      (inc_value "crawlera_sessions/no_unlocked_sessions" no_session_spider)
      deferred_request.
Proof.
  apply (process_request_no_session id "u1" 0%nat no_session_spider
           deferred_request default_session no_session_spider
           deferred_request); reflexivity.
Defined.

(** C9.  When the deferred bind succeeds, [process_request] pops the marker
    before handing the request on, so a second pass of the same request
    through [process_request] binds nothing and leaves the spider alone. *)
Theorem process_request_binds_once super uuid rnd spider request self s r :
  (∀ q, meta (super q) = meta q) →
  defer_assign_crawlera_session (meta request) = Some self →
  assign_crawlera_session self uuid rnd spider request None
  = Return true s r →
  process_request super uuid rnd spider request
  = Return tt s (super (pop_defer r))
  ∧ defer_assign_crawlera_session (meta (super (pop_defer r))) = None
  ∧ ∀ uuid' rnd' spider',
      process_request super uuid' rnd' spider' (super (pop_defer r))
      = Return tt spider' (super (super (pop_defer r))).
Proof.
  intros Hsuper Hdefer Hbind.
  assert (Hpop : defer_assign_crawlera_session (meta (super (pop_defer r)))
                 = None) by by rewrite Hsuper.
  split; [|split; [done|]].
  - unfold process_request. by rewrite Hdefer, Hbind.
  - intros uuid' rnd' spider'. unfold process_request. by rewrite Hpop.
Qed.

Lemma process_request_binds_once_witness :
  process_request id "k1" 0%nat (new_spider None) deferred_request
  = Return tt (lock "k1" (new_spider None))
      (pop_defer (init_request default_session "k1" deferred_request)).
Proof.
  apply (process_request_binds_once id "k1" 0%nat (new_spider None)
           deferred_request default_session
           (lock "k1" (new_spider None))
           (init_request default_session "k1" deferred_request));
    reflexivity.
Defined.

(** ** The capacity-2 scenario *)

(** C3 as stated fails: with no response recorded the pool is still empty
    when the third request is bound, so it starts a third session instead of
    being turned away; bound again after ["k1"] is unlocked it keeps its own
    key ["k3"]. *)
Lemma third_bind_starts_third_session :
  cap2_bound3
  = Return true (lock "k3" (outcome_spider cap2_bound2))
      (init_request default_session "k3" plain_request)
  ∧ crawlera_sessions (outcome_spider cap2_bound3) = []
  ∧ cookiejar (meta (outcome_request cap2_rebound3)) = Some "k3".
Proof. repeat split; vm_compute; reflexivity. Qed.

Lemma available_after_two_locked (k1 k2 : key) (locked : gset key) :
  k1 ∈ locked → k2 ∈ locked →
  filter (λ k, k ∉ locked) [k1; k2] = [].
Proof.
  intros H1 H2.
  rewrite filter_cons_False by (intros Hn; by apply Hn).
  rewrite filter_cons_False by (intros Hn; by apply Hn).
  done.
Qed.

(** C3, amended.  Capacity 2, requests without cookiejar, sessions enabled.
    R1 and R2 are bound to the new keys [k1] and [k2], both locked.  Once
    the responses to R1 and R2 have recorded the tokens [t1] and [t2], the
    bind of R3 returns [False].  After [k1] is unlocked, binding R3 again
    returns [True] with cookiejar [k1], [k1]'s stored token [t1] in the
    session header and [k1] locked again. *)
Theorem capacity_two_scenario self k1 k2 k3 rnd t1 t2 R1 R2 R3 :
  crawlera_session self = true →
  cookiejar (meta R1) = None →
  cookiejar (meta R2) = None →
  cookiejar (meta R3) = None →
  headers R3 !! "X-Crawlera-Session" = None →
  k1 ≠ k2 →
  ∃ s1 r1 s2 r2 s3 s4 s5 s6 r3,
    assign_crawlera_session self k1 rnd (new_spider (Some 2)) R1 None
    = Return true s1 r1
    ∧ cookiejar (meta r1) = Some k1 ∧ k1 ∈ locked_sessions s1
    ∧ assign_crawlera_session self k2 rnd s1 R2 None = Return true s2 r2
    ∧ cookiejar (meta r2) = Some k2 ∧ k2 ∈ locked_sessions s2
    ∧ process_response s2 r1 (session_header t1) = inr s3
    ∧ process_response s3 r2 (session_header t2) = inr s4
    ∧ assign_crawlera_session self k3 rnd s4 R3 None = Return false s4 R3
    ∧ unlock_session s4 (response_to r1 t1) = inr s5
    ∧ OrderedDict.get k1 (crawlera_sessions s5) = Some t1
    ∧ assign_crawlera_session self k3 rnd s5 R3 None = Return true s6 r3
    ∧ cookiejar (meta r3) = Some k1
    ∧ headers r3 !! "X-Crawlera-Session" = Some t1
    ∧ k1 ∈ locked_sessions s6.
Proof.
  intros Hcs H1 H2 H3 Hhd Hne.
  set (s0 := new_spider (Some 2)).
  set (s1 := lock k1 s0). set (s2 := lock k2 s1).
  set (s3 := record_session k1 t1 s2). set (s4 := record_session k2 t2 s3).
  set (s5 := discard k1 s4).
  assert (Hpool : crawlera_sessions s4 = [(k1, t1); (k2, t2)]).
  { unfold s4, s3, record_session, OrderedDict.setdefault; simpl.
    by rewrite decide_False. }
  assert (Hget : OrderedDict.get k1 (crawlera_sessions s5) = Some t1).
  { change (crawlera_sessions s5) with (crawlera_sessions s4).
    rewrite Hpool. simpl. by rewrite decide_True. }
  assert (Hfull : can_add_new_sessions s4 = false).
  { unfold can_add_new_sessions. cbn [MAX_PARALLEL_CRAWLERA_SESSIONS s4 s3 s2 s1
      s0 record_session lock new_spider]. rewrite Hpool. done. }
  assert (Hnone : available_sessions s4 = []).
  { unfold available_sessions. rewrite Hpool.
    apply available_after_two_locked; simpl; set_solver. }
  assert (Hone : available_sessions s5 = [k1]).
  { unfold available_sessions. change (crawlera_sessions s5)
      with (crawlera_sessions s4). rewrite Hpool.
    change (OrderedDict.keys [(k1, t1); (k2, t2)]) with [k1; k2].
    rewrite filter_cons_True.
    - rewrite filter_cons_False; [done|].
      intros Hn; apply Hn. simpl.
      rewrite elem_of_difference, !elem_of_union, !elem_of_singleton.
      split; [by right | congruence].
    - simpl. rewrite elem_of_difference, elem_of_singleton. tauto. }
  exists s1, (init_request self k1 R1), s2, (init_request self k2 R2),
    s3, s4, s5, (lock k1 s5),
    (set_cookiejar k1
       (_adapt_request self (set_header "X-Crawlera-Session" t1 R3))).
  repeat match goal with |- _ ∧ _ => split end.
  - rewrite bind_new_session by done. by rewrite H1.
  - by rewrite cookiejar_init_request, H1.
  - simpl. set_solver.
  - rewrite bind_new_session by done. by rewrite H2.
  - by rewrite cookiejar_init_request, H2.
  - simpl. set_solver.
  - unfold process_response, session_header.
    by rewrite lookup_singleton_eq, cookiejar_init_request, H1.
  - unfold process_response, session_header.
    by rewrite lookup_singleton_eq, cookiejar_init_request, H2.
  - by apply bind_no_session.
  - unfold unlock_session, response_to, response_meta; simpl.
    by rewrite cookiejar_init_request, H1.
  - exact Hget.
  - by apply bind_reuse_only_session.
  - done.
  - simpl. rewrite session_header_adapt. simpl. apply lookup_insert_eq.
  - simpl. set_solver.
Qed.

Lemma capacity_two_scenario_witness :
  ∃ s1 r1 s2 r2 s3 s4 s5 s6 r3,
    assign_crawlera_session default_session "k1" 0%nat (new_spider (Some 2))
      plain_request None = Return true s1 r1
    ∧ cookiejar (meta r1) = Some "k1" ∧ "k1" ∈ locked_sessions s1
    ∧ assign_crawlera_session default_session "k2" 0%nat s1 plain_request None
      = Return true s2 r2
    ∧ cookiejar (meta r2) = Some "k2" ∧ "k2" ∈ locked_sessions s2
    ∧ process_response s2 r1 (session_header "s1") = inr s3
    ∧ process_response s3 r2 (session_header "s2") = inr s4
    ∧ assign_crawlera_session default_session "k3" 0%nat s4 plain_request None
      = Return false s4 plain_request
    ∧ unlock_session s4 (response_to r1 "s1") = inr s5
    ∧ OrderedDict.get "k1" (crawlera_sessions s5) = Some "s1"
    ∧ assign_crawlera_session default_session "k3" 0%nat s5 plain_request None
      = Return true s6 r3
    ∧ cookiejar (meta r3) = Some "k1"
    ∧ headers r3 !! "X-Crawlera-Session" = Some "s1"
    ∧ "k1" ∈ locked_sessions s6.
Proof.
  apply (capacity_two_scenario default_session "k1" "k2" "k3" 0%nat "s1" "s2"
           plain_request plain_request plain_request);
    try reflexivity.
  intros [=].
Defined.

(** ** Locked keys and the pool *)

(** C2 as stated fails: the first bind on a fresh spider locks the new key
    while the pool is still empty. *)
Lemma new_session_locked_outside_pool :
  locked_sessions
    (run (new_spider None) [Bind default_session "k1" 0%nat plain_request None])
  = {[ "k1" ]}
  ∧ OrderedDict.keys
      (crawlera_sessions
         (run (new_spider None)
            [Bind default_session "k1" 0%nat plain_request None]))
    = [].
Proof. split; vm_compute; reflexivity. Qed.

Lemma assign_with_spider self spider request j :
  outcome_spider (assign_with self spider request (Some j)) = spider
  ∨ outcome_spider (assign_with self spider request (Some j)) = lock j spider
    ∧ (crawlera_session self
       && bool_decide (headers request !! "X-Crawlera-Session" = None) = true
       → j ∈ pool_keys spider).
Proof.
  simpl. destruct (crawlera_session self && _) eqn:Hlook.
  - destruct (OrderedDict.get j (crawlera_sessions spider)) as [t|] eqn:Hget;
      [|by left].
    rewrite cookiejar_adapt. simpl.
    destruct (cookiejar (meta request)); [by left|]. right. split; [done|].
    intros _. apply elem_of_list_to_set. by eapply get_Some_keys.
  - rewrite cookiejar_adapt.
    destruct (cookiejar (meta request)); [by left|]. right. split; done.
Qed.

Lemma step_locked spider e (Q : gset key) :
  locked_sessions spider ⊆ pool_keys spider ∪ Q →
  locked_sessions (step spider e)
  ⊆ pool_keys (step spider e) ∪ (Q ∪ unrecorded_lock spider e).
Proof.
  intros Hinv. destruct e as [self uuid rnd request [j|]|request hs|response];
    cbn [step unrecorded_lock].
  - change (assign_crawlera_session self uuid rnd spider request (Some j))
      with (assign_with self spider request (Some j)).
    destruct (assign_with_spider self spider request j) as [Heq|[Heq Hin]];
      rewrite Heq.
    + set_solver.
    + destruct (crawlera_session self && _); simpl.
      * specialize (Hin eq_refl). set_solver.
      * set_solver.
  - destruct (can_add_new_sessions spider) eqn:Hcan.
    + rewrite bind_new_session by done. simpl. set_solver.
    + unfold assign_crawlera_session. rewrite Hcan.
      destruct (available_sessions spider) as [|a l] eqn:Hav.
      * simpl. set_solver.
      * destruct (random_choice_elem rnd (a :: l)) as (j & Hj & Hin); [done|].
        rewrite Hj. rewrite <- Hav in Hin.
        apply available_sessions_in_pool in Hin as [Hin _].
        assert (Hjp : j ∈ pool_keys spider) by by apply elem_of_list_to_set.
        destruct (assign_with_spider self spider request j) as [Heq|[Heq _]];
          rewrite Heq; simpl; set_solver.
  - unfold process_response.
    destruct (hs !! "X-Crawlera-Session") as [t|]; [|set_solver].
    destruct (cookiejar (meta request)) as [j|]; [|set_solver].
    assert (Hmono : pool_keys spider ⊆ pool_keys (record_session j t spider)).
    { intros x Hx. apply elem_of_list_to_set. simpl.
      apply keys_setdefault. by apply elem_of_list_to_set in Hx. }
    simpl locked_sessions. set_solver.
  - unfold unlock_session.
    destruct (cookiejar (response_meta response)) as [j|]; [|set_solver].
    unfold pool_keys. simpl. fold (pool_keys spider). set_solver.
Qed.

Lemma run_locked trace : ∀ spider (Q : gset key),
  locked_sessions spider ⊆ pool_keys spider ∪ Q →
  locked_sessions (run spider trace)
  ⊆ pool_keys (run spider trace) ∪ (Q ∪ pending spider trace).
Proof.
  induction trace as [|e trace IH]; intros spider Q Hinv; simpl.
  - set_solver.
  - apply (step_locked _ e) in Hinv. apply IH in Hinv.
    unfold run in Hinv. set_solver.
Qed.

(** C2, amended.  Along every sequence of binds, token recordings and
    unlocks, every locked key is a key of the pool or a key that a bind
    locked without reading it from the pool: the cookiejar of a request
    bound as a new session, whose token reaches the pool only with a
    response, or an explicit cookiejar bound without token lookup.  Token
    recording, unlocking and the reuse of an available session add no such
    key. *)
Theorem locked_in_pool_or_pending spider trace :
  locked_sessions spider ⊆ pool_keys spider →
  locked_sessions (run spider trace)
  ⊆ pool_keys (run spider trace) ∪ pending spider trace.
Proof.
  intros Hinv.
  assert (H : locked_sessions spider ⊆ pool_keys spider ∪ ∅) by set_solver.
  apply (run_locked trace) in H. set_solver.
Qed.

Lemma locked_in_pool_or_pending_witness :
  locked_sessions (run (new_spider (Some 1)) two_pending_binds)
  ⊆ pool_keys (run (new_spider (Some 1)) two_pending_binds)
    ∪ pending (new_spider (Some 1)) two_pending_binds.
Proof.
  apply (locked_in_pool_or_pending (new_spider (Some 1)) two_pending_binds).
  apply empty_subseteq.
Defined.

(** ** The admission gate *)

Section gate.

Implicit Types (spider : Spider) (q r : Request)
  (retained upstream : list Request).


Lemma not_enqueued_unbound spider q :
  _can_enqueue_request spider q = false → unbound q.
Proof.
  unfold unbound, _can_enqueue_request.
  by destruct (truthy (cookiejar (meta q))).
Qed.

Lemma list_remove_first_Forall (P : Request → Prop) q retained :
  Forall P retained → Forall P (list_remove_first q retained).
Proof.
  induction 1 as [|y l Hy Hl IH]; simpl; [done|].
  destruct (decide (y = q)); [done | by constructor].
Qed.

(** The gate retains only requests on which no session decision has been
    made. *)
Lemma next_request_retains_unbound spider retained upstream :
  Forall unbound retained →
  Forall unbound (_next_request spider retained upstream).1.2.
Proof.
  intros Hall. unfold _next_request.
  destruct (List.find _ retained); simpl.
  - by apply list_remove_first_Forall.
  - destruct upstream as [|new upstream']; simpl; [done|].
    destruct (_can_enqueue_request spider new) eqn:Hnew; simpl; [done|].
    apply Forall_app. split; [done|].
    constructor; [by eapply not_enqueued_unbound | constructor].
Qed.

Lemma pulls_retain_unbound envs : ∀ retained,
  Forall unbound retained → Forall unbound (pulls envs retained).2.
Proof.
  induction envs as [|[spider upstream] envs IH]; intros retained Hall;
    simpl; [done|].
  pose proof (next_request_retains_unbound spider retained upstream Hall)
    as Hnext.
  destruct (_next_request spider retained upstream) as [[res ret'] up'].
  specialize (IH ret' Hnext).
  destruct (pulls envs ret') as [out final]. done.
Qed.



End gate.








(** * Further properties of the code *)

(** ** What a bind does to the spider and to the request *)

Lemma assign_with_outcome self spider request j :
  (∃ e r, assign_with self spider request (Some j) = Raise e spider r
          ∧ (e = WrongSessionError ∨ e = KeyError))
  ∨ ∃ r, assign_with self spider request (Some j)
         = Return true (lock j spider) r
         ∧ cookiejar (meta r) = Some j
         ∧ cookiejar (meta request) = None.
Proof.
  simpl. destruct (crawlera_session self && _).
  - destruct (OrderedDict.get j (crawlera_sessions spider)); [|left; eauto].
    rewrite cookiejar_adapt. simpl.
    destruct (cookiejar (meta request)); [left; eauto|right; eauto].
  - rewrite cookiejar_adapt.
    destruct (cookiejar (meta request)); [left; eauto|right; eauto].
Qed.

Lemma assign_only_locks_spider self uuid rnd spider request jar :
  outcome_spider (assign_crawlera_session self uuid rnd spider request jar)
  = spider
  ∨ ∃ j, outcome_spider
           (assign_crawlera_session self uuid rnd spider request jar)
         = lock j spider.
Proof.
  assert (Hwith : ∀ j,
    outcome_spider (assign_with self spider request j) = spider
    ∨ ∃ j', outcome_spider (assign_with self spider request j)
            = lock j' spider).
  { intros [j|]; [|by left].
    destruct (assign_with_outcome self spider request j)
      as [(e & r & -> & _)|(r & -> & _)]; [by left | right; eauto]. }
  unfold assign_crawlera_session. destruct jar as [j|]; [apply Hwith|].
  destruct (can_add_new_sessions spider); [|apply Hwith].
  rewrite cookiejar_init_request. right. eauto.
Qed.

Lemma assign_return_true self uuid rnd spider request jar s r :
  assign_crawlera_session self uuid rnd spider request jar = Return true s r →
  ∃ j, s = lock j spider ∧ cookiejar (meta r) = Some j.
Proof.
  assert (Hwith : ∀ j, assign_with self spider request j = Return true s r →
                       ∃ j', s = lock j' spider ∧ cookiejar (meta r) = Some j').
  { intros [j|]; [|done].
    destruct (assign_with_outcome self spider request j)
      as [(e & r' & -> & _)|(r' & -> & Hr' & _)]; [done|].
    intros [= <- <-]. eauto. }
  unfold assign_crawlera_session. destruct jar as [j|]; [apply Hwith|].
  destruct (can_add_new_sessions spider); [|apply Hwith].
  rewrite cookiejar_init_request. intros [= <- <-].
  eexists. split; [done|]. apply cookiejar_init_request.
Qed.

Lemma assign_raise_unchanged self uuid rnd spider request jar e s r :
  assign_crawlera_session self uuid rnd spider request jar = Raise e s r →
  s = spider.
Proof.
  assert (Hwith : ∀ j, assign_with self spider request j = Raise e s r →
                       s = spider).
  { intros [j|]; [|done].
    destruct (assign_with_outcome self spider request j)
      as [(e' & r' & -> & _)|(r' & -> & _)]; [|done].
    by intros [= _ <- _]. }
  unfold assign_crawlera_session. destruct jar as [j|]; [apply Hwith|].
  destruct (can_add_new_sessions spider); [|apply Hwith].
  by rewrite cookiejar_init_request.
Qed.

(** X1.  A bind changes the spider in one way only: when it returns [True]
    it has locked the cookiejar the request then carries, and the pool, the
    bound and the counters are as before; a bind that returns [False] has
    changed neither the spider nor the request, and a bind that raises
    leaves the spider as it was. *)
Theorem assign_only_locks self uuid rnd spider request jar :
  match assign_crawlera_session self uuid rnd spider request jar with
  | Return true s r =>
      ∃ j, cookiejar (meta r) = Some j
           ∧ locked_sessions s = locked_sessions spider ∪ {[j]}
           ∧ crawlera_sessions s = crawlera_sessions spider
           ∧ MAX_PARALLEL_CRAWLERA_SESSIONS s
             = MAX_PARALLEL_CRAWLERA_SESSIONS spider
           ∧ crawler_stats s = crawler_stats spider
  | Return false s r => s = spider ∧ r = request
  | Raise e s r => s = spider
  end.
Proof.
  destruct (assign_crawlera_session self uuid rnd spider request jar)
    as [[] s r|e s r] eqn:Hbind.
  - apply assign_return_true in Hbind as (j & -> & Hr).
    exists j. by repeat split.
  - by eapply assign_false_unchanged.
  - by eapply assign_raise_unchanged.
Qed.

Lemma bind_unbound_request self uuid rnd spider request :
  cookiejar (meta request) = None →
  can_add_new_sessions spider = true ∨ available_sessions spider ≠ [] →
  ∃ j r, assign_crawlera_session self uuid rnd spider request None
         = Return true (lock j spider) r
         ∧ cookiejar (meta r) = Some j.
Proof.
  intros Hjar Hstate.
  destruct (can_add_new_sessions spider) eqn:Hcan.
  - rewrite bind_new_session by done. eexists _, _. split; [done|].
    by rewrite cookiejar_init_request, Hjar.
  - destruct Hstate as [|Hav]; [done|].
    unfold assign_crawlera_session. rewrite Hcan.
    destruct (available_sessions spider) as [|a l] eqn:Hl; [done|].
    destruct (random_choice_elem rnd (a :: l)) as (j & -> & Hin); [done|].
    rewrite <- Hl in Hin. apply available_sessions_in_pool in Hin as [Hin _].
    apply get_is_Some in Hin as [t Ht].
    destruct (assign_with_outcome self spider request j)
      as [(e & r & Heq & He)|(r & Heq & Hr & _)]; [|eauto].
    exfalso. revert Heq. simpl. rewrite Ht.
    destruct (crawlera_session self && _); rewrite cookiejar_adapt; simpl;
      by rewrite Hjar.
Qed.

Lemma can_enqueue_state spider request :
  cookiejar (meta request) = None →
  _can_enqueue_request spider request = true
  ↔ can_add_new_sessions spider = true ∨ available_sessions spider ≠ [].
Proof.
  intros Hjar. unfold _can_enqueue_request. rewrite Hjar. cbn [truthy].
  destruct (can_add_new_sessions spider); [by split; [left|]|].
  destruct (available_sessions spider); split; try done.
  - by intros [|].
  - by right.
Qed.

(** X2.  For a request without cookiejar, a bind without explicit cookiejar
    never raises, and it succeeds exactly when the gate's test
    [_can_enqueue_request] holds for the request at that moment: then the
    request gets a cookiejar, which is locked; otherwise the bind returns
    [False] and nothing has changed. *)
Theorem assign_agrees_with_gate self uuid rnd spider request :
  cookiejar (meta request) = None →
  if _can_enqueue_request spider request
  then ∃ j r, assign_crawlera_session self uuid rnd spider request None
              = Return true (lock j spider) r
              ∧ cookiejar (meta r) = Some j
  else assign_crawlera_session self uuid rnd spider request None
       = Return false spider request.
Proof.
  intros Hjar. pose proof (can_enqueue_state spider request Hjar) as Hgate.
  destruct (_can_enqueue_request spider request).
  - apply bind_unbound_request; [done|]. by apply Hgate.
  - destruct (can_add_new_sessions spider) eqn:Hcan.
    + exfalso. assert (false = true) by (apply Hgate; by left). done.
    + destruct (available_sessions spider) eqn:Hav.
      * by apply bind_no_session.
      * exfalso. assert (false = true) by (apply Hgate; by right). done.
Qed.

Lemma assign_agrees_with_gate_witness :
  assign_crawlera_session default_session "u1" 0%nat no_session_spider
    plain_request None
  = Return false no_session_spider plain_request.
Proof.
  apply (assign_agrees_with_gate default_session "u1" 0%nat no_session_spider
           plain_request).
  reflexivity.
Defined.

(** X3.  When no new session can be added, a bind without explicit cookiejar
    that succeeds has taken a key of the pool that was not locked; the key
    is locked afterwards and so no longer among the available sessions;
    with sessions enabled and no session header on the request yet, the
    header afterwards is the token the pool stores for that key. *)
Theorem reuse_is_exclusive self uuid rnd spider request s r :
  can_add_new_sessions spider = false →
  assign_crawlera_session self uuid rnd spider request None = Return true s r →
  ∃ j, cookiejar (meta r) = Some j
       ∧ j ∈ OrderedDict.keys (crawlera_sessions spider)
       ∧ (j ∉ locked_sessions spider)
       ∧ s = lock j spider
       ∧ (j ∉ available_sessions s)
       ∧ (crawlera_session self = true →
          headers request !! "X-Crawlera-Session" = None →
          headers r !! "X-Crawlera-Session"
          = OrderedDict.get j (crawlera_sessions spider)).
Proof.
  intros Hcan Hbind. unfold assign_crawlera_session in Hbind.
  rewrite Hcan in Hbind.
  destruct (available_sessions spider) as [|a l] eqn:Hav; [done|].
  destruct (random_choice_elem rnd (a :: l)) as (j & Hj & Hin); [done|].
  rewrite Hj in Hbind. rewrite <- Hav in Hin.
  apply available_sessions_in_pool in Hin as [Hin Hnl].
  exists j.
  destruct (assign_with_outcome self spider request j)
    as [(e & r' & Heq & _)|(r' & Heq & Hr & Hnone)];
    rewrite Heq in Hbind; [done|].
  injection Hbind as <- <-.
  repeat split; try done.
  - intros [_ Hav']%available_sessions_in_pool. apply Hav'. simpl.
    apply elem_of_union_r, elem_of_singleton. done.
  - intros Hcs Hhd. revert Heq. simpl. rewrite Hcs, Hhd. simpl.
    destruct (OrderedDict.get j (crawlera_sessions spider)) as [t|]; [|done].
    rewrite cookiejar_adapt. simpl. rewrite Hnone. intros [= <-]. simpl.
    rewrite session_header_adapt. simpl. apply lookup_insert_eq.
Qed.

Lemma reuse_is_exclusive_witness :
  ∃ j, cookiejar (meta (outcome_request reuse_bound)) = Some j
       ∧ j ∈ OrderedDict.keys (crawlera_sessions one_session_spider)
       ∧ (j ∉ locked_sessions one_session_spider)
       ∧ outcome_spider reuse_bound = lock j one_session_spider
       ∧ (j ∉ available_sessions (outcome_spider reuse_bound))
       ∧ (crawlera_session default_session = true →
          headers plain_request !! "X-Crawlera-Session" = None →
          headers (outcome_request reuse_bound) !! "X-Crawlera-Session"
          = OrderedDict.get j (crawlera_sessions one_session_spider)).
Proof.
  apply (reuse_is_exclusive default_session "u1" 0%nat one_session_spider
           plain_request (outcome_spider reuse_bound)
           (outcome_request reuse_bound)).
  - reflexivity.
  - vm_compute. reflexivity.
Defined.

(** X4.  A request that already has a session header is bound to an
    explicit cookiejar without the pool being read: the header is kept, no
    [KeyError] is possible, and a request without cookiejar is bound and the
    cookiejar locked even when the pool has no entry for it. *)
Theorem explicit_bind_keeps_session_header self uuid rnd spider request j h :
  headers request !! "X-Crawlera-Session" = Some h →
  cookiejar (meta request) = None →
  ∃ r, assign_crawlera_session self uuid rnd spider request (Some j)
       = Return true (lock j spider) r
       ∧ headers r !! "X-Crawlera-Session" = Some h
       ∧ cookiejar (meta r) = Some j.
Proof.
  intros Hh Hjar. unfold assign_crawlera_session, assign_with.
  rewrite Hh, bool_decide_eq_false_2 by done. rewrite andb_false_r.
  rewrite cookiejar_adapt, Hjar. eexists. split; [done|]. simpl.
  by rewrite session_header_adapt.
Qed.

Lemma explicit_bind_keeps_session_header_witness :
  ∃ r, assign_crawlera_session default_session "u1" 0%nat (new_spider None)
         (set_header "X-Crawlera-Session" "s9" plain_request) (Some "k7")
       = Return true (lock "k7" (new_spider None)) r
       ∧ headers r !! "X-Crawlera-Session" = Some "s9"
       ∧ cookiejar (meta r) = Some "k7".
Proof.
  apply (explicit_bind_keeps_session_header default_session "u1" 0%nat
           (new_spider None)
           (set_header "X-Crawlera-Session" "s9" plain_request) "k7" "s9");
    reflexivity.
Defined.

(** X5.  With sessions enabled and no session header on the request, a bind
    to an explicit cookiejar that has no entry in the pool raises
    [KeyError] before anything is written: the spider and the request are as
    they were. *)
Theorem explicit_bind_unknown_cookiejar self uuid rnd spider request j :
  crawlera_session self = true →
  headers request !! "X-Crawlera-Session" = None →
  j ∉ OrderedDict.keys (crawlera_sessions spider) →
  assign_crawlera_session self uuid rnd spider request (Some j)
  = Raise KeyError spider request.
Proof.
  intros Hcs Hh Hj. unfold assign_crawlera_session, assign_with.
  rewrite Hcs, Hh. simpl.
  destruct (OrderedDict.get j (crawlera_sessions spider)) eqn:Hget; [|done].
  exfalso. apply Hj. by eapply get_Some_keys.
Qed.

Lemma explicit_bind_unknown_cookiejar_witness :
  assign_crawlera_session default_session "u1" 0%nat (new_spider None)
    plain_request (Some "k7")
  = Raise KeyError (new_spider None) plain_request.
Proof.
  apply (explicit_bind_unknown_cookiejar default_session "u1" 0%nat
           (new_spider None) plain_request "k7"); try reflexivity.
  apply not_elem_of_nil.
Defined.

(** X6.  A lock does not stop binds to an explicit cookiejar: a request
    without cookiejar is bound to a cookiejar of the pool that is already
    locked, and the spider is exactly as before. *)
Theorem explicit_bind_ignores_lock self uuid rnd spider request j :
  j ∈ locked_sessions spider →
  j ∈ OrderedDict.keys (crawlera_sessions spider) →
  cookiejar (meta request) = None →
  ∃ r, assign_crawlera_session self uuid rnd spider request (Some j)
       = Return true spider r
       ∧ cookiejar (meta r) = Some j.
Proof.
  intros Hl Hp Hjar. apply get_is_Some in Hp as [t Ht].
  assert (Hlock : lock j spider = spider).
  { destruct spider as [pool locked max st]. unfold lock; simpl in *.
    f_equal. set_solver. }
  destruct (assign_with_outcome self spider request j)
    as [(e & r & Heq & _)|(r & Heq & Hr & _)].
  - exfalso. revert Heq. simpl. rewrite Ht.
    destruct (crawlera_session self && _); rewrite cookiejar_adapt; simpl;
      by rewrite Hjar.
  - exists r. unfold assign_crawlera_session. by rewrite Heq, Hlock.
Qed.

Lemma explicit_bind_ignores_lock_witness :
  ∃ r, assign_crawlera_session default_session "u1" 0%nat
         (lock "k1" sentinel_spider) plain_request (Some "k1")
       = Return true (lock "k1" sentinel_spider) r
       ∧ cookiejar (meta r) = Some "k1".
Proof.
  apply (explicit_bind_ignores_lock default_session "u1" 0%nat
           (lock "k1" sentinel_spider) plain_request "k1").
  - simpl. apply elem_of_union_r, elem_of_singleton. reflexivity.
  - apply list_elem_of_here.
  - reflexivity.
Defined.

(** ** What a bind leaves alone *)

Lemma untouched_refl r : untouched r r.
Proof. by repeat split. Qed.

Lemma untouched_trans r1 r2 r3 :
  untouched r1 r2 → untouched r2 r3 → untouched r1 r3.
Proof.
  intros (H1 & H2 & H3) (H1' & H2' & H3'). repeat split; try congruence.
  intros name Hn. by rewrite H1', H1.
Qed.

Lemma untouched_set_header name v r :
  name ∈ crawlera_header_names → untouched r (set_header name v r).
Proof.
  intros Hin. repeat split; simpl. intros n Hn.
  apply lookup_insert_ne. by intros ->.
Qed.

Lemma untouched_set_cookiejar k r : untouched r (set_cookiejar k r).
Proof. by repeat split. Qed.

Lemma untouched_adapt self r : untouched r (_adapt_request self r).
Proof.
  unfold _adapt_request.
  destruct (x_crawlera_cookies self), (x_crawlera_profile self),
    (x_crawlera_wait self);
    repeat (first [ apply untouched_refl
                  | eapply untouched_trans;
                    [|apply untouched_set_header; unfold crawlera_header_names;
                      set_solver] ]).
Qed.

Lemma untouched_init_request self uuid r :
  untouched r (init_request self uuid r).
Proof.
  unfold init_request.
  eapply untouched_trans; [|apply untouched_adapt].
  destruct (crawlera_session self), (cookiejar (meta r));
    repeat (first [ apply untouched_refl
                  | apply untouched_set_cookiejar
                  | eapply untouched_trans;
                    [|apply untouched_set_header; unfold crawlera_header_names;
                      set_solver] ]).
Qed.

Lemma untouched_assign self uuid rnd spider request jar :
  untouched request
    (outcome_request (assign_crawlera_session self uuid rnd spider request jar)).
Proof.
  assert (Hwith : ∀ j,
    untouched request (outcome_request (assign_with self spider request j))).
  { intros [j|]; simpl; [|apply untouched_refl].
    destruct (crawlera_session self && _);
      [destruct (OrderedDict.get j _); [|apply untouched_refl]|];
      destruct (cookiejar (meta (_adapt_request self _))); simpl;
      repeat (first [ apply untouched_refl
                    | apply untouched_set_cookiejar
                    | apply untouched_adapt
                    | apply untouched_set_header; unfold crawlera_header_names;
                      set_solver
                    | eapply untouched_trans; [|apply untouched_set_cookiejar]
                    | eapply untouched_trans; [|apply untouched_adapt] ]). }
  unfold assign_crawlera_session. destruct jar as [j|]; [apply Hwith|].
  destruct (can_add_new_sessions spider); [|apply Hwith].
  rewrite cookiejar_init_request. apply untouched_init_request.
Qed.

(** X7.  Whatever its outcome, a bind leaves every header of the request
    other than the four Crawlera headers as it was, and likewise the
    [no_crawlera_session] flag and the deferred-bind entry of its meta. *)
Theorem assign_frame self uuid rnd spider request jar name :
  name ∉ crawlera_header_names →
  headers (outcome_request
             (assign_crawlera_session self uuid rnd spider request jar))
    !! name = headers request !! name
  ∧ no_crawlera_session
      (meta (outcome_request
               (assign_crawlera_session self uuid rnd spider request jar)))
    = no_crawlera_session (meta request)
  ∧ defer_assign_crawlera_session
      (meta (outcome_request
               (assign_crawlera_session self uuid rnd spider request jar)))
    = defer_assign_crawlera_session (meta request).
Proof.
  intros Hn.
  destruct (untouched_assign self uuid rnd spider request jar)
    as (H1 & H2 & H3).
  by rewrite H1.
Qed.

Lemma assign_frame_witness :
  headers (outcome_request reuse_bound) !! "User-Agent"
  = headers plain_request !! "User-Agent".
Proof.
  apply (assign_frame default_session "u1" 0%nat one_session_spider
           plain_request None "User-Agent").
  unfold crawlera_header_names. set_solver.
Defined.

(** X8.  [init_request] is idempotent: a request that went through it is
    not changed by going through it again, whatever uuid is drawn the second
    time. *)
Theorem init_request_idempotent self uuid uuid' request :
  init_request self uuid' (init_request self uuid request)
  = init_request self uuid request.
Proof.
  destruct self as [[] [c|] [p|] [w|]], request as [[[k|] n d] h];
    unfold init_request, _adapt_request, set_header, set_cookiejar; simpl;
    f_equal; apply map_eq; intros i;
    repeat (rewrite lookup_insert; case_decide); done.
Qed.

(** X9.  Start requests pass the gate whatever the state of the spider:
    every request [init_start_requests] yields whose cookiejar, its own or
    the uuid drawn for it, is not the empty string is eligible for every
    pool, every set of locks and every capacity bound. *)
Theorem start_requests_pass_gate self requests spider :
  Forall (λ ur, default ur.1 (cookiejar (meta ur.2)) ≠ "") requests →
  Forall (λ r, _can_enqueue_request spider r = true)
    (init_start_requests self requests).
Proof.
  intros Hall. unfold init_start_requests. apply Forall_fmap.
  eapply Forall_impl; [exact Hall|]. intros [u r] Hne. simpl in *.
  unfold _can_enqueue_request. rewrite cookiejar_init_request. simpl.
  destruct (String.eqb_spec (default u (cookiejar (meta r))) ""); done.
Qed.

Lemma start_requests_pass_gate_witness :
  Forall (λ r, _can_enqueue_request no_session_spider r = true)
    (init_start_requests default_session
       [("u1", plain_request); ("u2", plain_request)]).
Proof.
  apply (start_requests_pass_gate default_session
           [("u1", plain_request); ("u2", plain_request)] no_session_spider).
  repeat constructor; simpl; discriminate.
Defined.

(** ** Deferred binds *)

Lemma set_defer_adapt self' self r :
  _adapt_request self (set_defer self' r)
  = set_defer self' (_adapt_request self r).
Proof.
  unfold _adapt_request.
  by destruct (x_crawlera_cookies self), (x_crawlera_profile self),
    (x_crawlera_wait self).
Qed.

Lemma set_defer_init_request self' self uuid r :
  init_request self uuid (set_defer self' r)
  = set_defer self' (init_request self uuid r).
Proof.
  unfold init_request. simpl.
  destruct (cookiejar (meta r)), (crawlera_session self);
    by rewrite <- set_defer_adapt.
Qed.

(** The deferred-bind entry plays no part in a bind. *)
Lemma assign_set_defer self' self uuid rnd spider r jar :
  assign_crawlera_session self uuid rnd spider (set_defer self' r) jar
  = match assign_crawlera_session self uuid rnd spider r jar with
    | Return b s r' => Return b s (set_defer self' r')
    | Raise e s r' => Raise e s (set_defer self' r')
    end.
Proof.
  assert (Hwith : ∀ j,
    assign_with self spider (set_defer self' r) j
    = match assign_with self spider r j with
      | Return b s r' => Return b s (set_defer self' r')
      | Raise e s r' => Raise e s (set_defer self' r')
      end).
  { intros [j|]; simpl; [|done].
    destruct (crawlera_session self && _);
      [destruct (OrderedDict.get j _) as [t|]; [|done];
       change (set_header "X-Crawlera-Session" t (set_defer self' r))
         with (set_defer self' (set_header "X-Crawlera-Session" t r))|];
      rewrite set_defer_adapt; simpl;
      by destruct (cookiejar (meta (_adapt_request self _))). }
  unfold assign_crawlera_session. destruct jar as [j|]; [apply Hwith|].
  destruct (can_add_new_sessions spider); [|apply Hwith].
  rewrite set_defer_init_request. simpl.
  by destruct (cookiejar (meta (init_request self uuid r))).
Qed.

Lemma pop_set_defer self r :
  defer_assign_crawlera_session (meta r) = None →
  pop_defer (set_defer self r) = r.
Proof. destruct r as [[k n d] h]. simpl. by intros ->. Qed.

(** X10.  Deferring a bind does not change its result.  For a request
    without deferred-bind entry: if binding it directly succeeds, then
    marking it with [defer_assign_session] and passing it through
    [process_request] in the same state gives the same spider and hands the
    same bound request, the marker gone again, to the parent middleware. *)
Theorem deferred_bind_equals_direct_bind super self uuid rnd spider r s r' :
  defer_assign_crawlera_session (meta r) = None →
  assign_crawlera_session self uuid rnd spider r None = Return true s r' →
  defer_assign_session self [YieldRequest r]
  = [YieldRequest (set_defer self r)]
  ∧ process_request super uuid rnd spider (set_defer self r)
    = Return tt s (super r').
Proof.
  intros Hdefer Hbind. split; [done|].
  unfold process_request.
  change (defer_assign_crawlera_session (meta (set_defer self r)))
    with (Some self).
  cbv beta iota. rewrite assign_set_defer, Hbind.
  rewrite pop_set_defer; [done|].
  destruct (untouched_assign self uuid rnd spider r None) as (_ & _ & H3).
  rewrite Hbind in H3. simpl in H3. by rewrite H3.
Qed.

Lemma deferred_bind_equals_direct_bind_witness :
  defer_assign_session default_session [YieldRequest plain_request]
  = [YieldRequest (set_defer default_session plain_request)]
  ∧ process_request id "u1" 0%nat one_session_spider
      (set_defer default_session plain_request)
    = Return tt (outcome_spider reuse_bound) (outcome_request reuse_bound).
Proof.
  apply (deferred_bind_equals_direct_bind id default_session "u1" 0%nat
           one_session_spider plain_request (outcome_spider reuse_bound)
           (outcome_request reuse_bound)).
  - reflexivity.
  - vm_compute. reflexivity.
Defined.

Lemma find_eligible spider retained q :
  List.find (_can_enqueue_request spider) retained = Some q →
  _can_enqueue_request spider q = true ∧ q ∈ retained.
Proof.
  intros [Hin Hq]%List.find_some. split; [done|]. by apply list_elem_of_In.
Qed.

Lemma next_request_eligible spider retained upstream q retained' upstream' :
  _next_request spider retained upstream = (Some q, retained', upstream') →
  _can_enqueue_request spider q = true.
Proof.
  unfold _next_request.
  destruct (List.find _ retained) as [q'|] eqn:Hfind.
  - intros [= <- _ _]. by apply find_eligible in Hfind as [? _].
  - destruct upstream as [|new up]; [done|].
    destruct (_can_enqueue_request spider new) eqn:Hnew; [|done].
    by intros [= <- _ _].
Qed.

(** X11.  A request the gate has just let through is not dropped by the
    deferred bind: if [_next_request] returns a request that has no
    cookiejar and carries a deferred bind, then [process_request] in the
    same state binds it, locks its cookiejar, removes the marker and raises
    nothing. *)
Theorem admitted_request_is_bound super uuid rnd spider retained upstream
    q retained' upstream' self :
  _next_request spider retained upstream = (Some q, retained', upstream') →
  cookiejar (meta q) = None →
  defer_assign_crawlera_session (meta q) = Some self →
  ∃ j r, process_request super uuid rnd spider q
         = Return tt (lock j spider) (super (pop_defer r))
         ∧ cookiejar (meta r) = Some j
         ∧ defer_assign_crawlera_session (meta (pop_defer r)) = None.
Proof.
  intros Hnext Hjar Hdefer. apply next_request_eligible in Hnext.
  apply can_enqueue_state in Hnext; [|done].
  destruct (bind_unbound_request self uuid rnd spider q Hjar Hnext)
    as (j & r & Hbind & Hr).
  exists j, r. unfold process_request. by rewrite Hdefer, Hbind.
Qed.

Lemma admitted_request_is_bound_witness :
  ∃ j r, process_request id "u1" 0%nat (new_spider None) deferred_request
         = Return tt (lock j (new_spider None)) (id (pop_defer r))
         ∧ cookiejar (meta r) = Some j
         ∧ defer_assign_crawlera_session (meta (pop_defer r)) = None.
Proof.
  apply (admitted_request_is_bound id "u1" 0%nat (new_spider None)
           [deferred_request] [] deferred_request [] [] default_session);
    reflexivity.
Defined.

(** ** follow_session *)

Lemma get_setdefault k v d :
  OrderedDict.get k (OrderedDict.setdefault k v d)
  = Some (default v (OrderedDict.get k d)).
Proof.
  unfold OrderedDict.setdefault.
  destruct (OrderedDict.get k d) eqn:Hget; simpl; [done|].
  by apply get_app_new.
Qed.

Lemma follow_session_yield_ok self jar objs : ∀ spider s out,
  follow_session_yield self jar spider objs = (s, out, None) →
  crawlera_sessions s = crawlera_sessions spider
  ∧ locked_sessions s ⊆ locked_sessions spider ∪ {[jar]}
  ∧ Forall2 (sticky jar) objs out.
Proof.
  induction objs as [|[r|i] objs IH]; intros spider s out;
    cbn [follow_session_yield].
  - intros [= <- <-]. repeat split; [set_solver | constructor].
  - destruct (no_crawlera_session (meta r)) eqn:Hno.
    + destruct (follow_session_yield self jar spider objs)
        as [[s' out'] e] eqn:Hrec.
      intros [= <- <- ->]. destruct (IH _ _ _ Hrec) as (Hp & Hl & Hall).
      repeat split; [done..|]. constructor; [|done]. simpl. by rewrite Hno.
    + pose proof (untouched_assign self "" 0%nat spider r (Some jar)) as Hun.
      change (assign_crawlera_session self "" 0%nat spider r (Some jar))
        with (assign_with self spider r (Some jar)) in *.
      destruct (assign_with_outcome self spider r jar)
        as [(e & r' & Heq & _)|(r' & Heq & Hr & Hnone)];
        rewrite Heq in *; [done|].
      destruct (follow_session_yield self jar (lock jar spider) objs)
        as [[s' out'] e] eqn:Hrec.
      intros [= <- <- ->]. destruct (IH _ _ _ Hrec) as (Hp & Hl & Hall).
      repeat split; [done | simpl in Hl; set_solver |].
      constructor; [|done]. simpl. by rewrite Hno.
  - destruct (follow_session_yield self jar spider objs)
      as [[s' out'] e] eqn:Hrec.
    intros [= <- <- ->]. destruct (IH _ _ _ Hrec) as (Hp & Hl & Hall).
    repeat split; [done..|]. by constructor.
Qed.

(** X12.  When [follow_session] runs to its end, it has recorded the
    response's token for the response's cookiejar (unless the pool had one),
    locked at most that cookiejar, and yielded the callback's objects in
    their order: items and exempt requests unchanged, every other request,
    which had no cookiejar, with the response's cookiejar and nothing but
    its Crawlera headers changed. *)
Theorem follow_session_sticky self spider response objs s out :
  follow_session self spider response objs = (s, out, None) →
  ∃ jar t,
    cookiejar (response_meta response) = Some jar
    ∧ response_headers response !! "X-Crawlera-Session" = Some t
    ∧ crawlera_sessions s
      = OrderedDict.setdefault jar t (crawlera_sessions spider)
    ∧ locked_sessions s ⊆ locked_sessions spider ∪ {[jar]}
    ∧ Forall2 (sticky jar) objs out.
Proof.
  unfold follow_session, follow_session_enter.
  destruct (cookiejar (response_meta response)) as [jar|]; [|done].
  destruct (response_headers response !! "X-Crawlera-Session") as [t|];
    [|done].
  intros Hy. apply follow_session_yield_ok in Hy as (Hp & Hl & Hall).
  exists jar, t. by repeat split.
Qed.

Lemma follow_session_sticky_witness :
  ∃ jar t,
    cookiejar (response_meta (response_to (request_with_jar "k1") "s1"))
    = Some jar
    ∧ response_headers (response_to (request_with_jar "k1") "s1")
        !! "X-Crawlera-Session" = Some t
    ∧ crawlera_sessions
        (follow_session default_session (new_spider None)
           (response_to (request_with_jar "k1") "s1")
           [YieldRequest plain_request; YieldItem "item"]).1.1
      = OrderedDict.setdefault jar t (crawlera_sessions (new_spider None))
    ∧ locked_sessions
        (follow_session default_session (new_spider None)
           (response_to (request_with_jar "k1") "s1")
           [YieldRequest plain_request; YieldItem "item"]).1.1
      ⊆ locked_sessions (new_spider None) ∪ {[jar]}
    ∧ Forall2 (sticky jar) [YieldRequest plain_request; YieldItem "item"]
        (follow_session default_session (new_spider None)
           (response_to (request_with_jar "k1") "s1")
           [YieldRequest plain_request; YieldItem "item"]).1.2.
Proof.
  apply (follow_session_sticky default_session (new_spider None)
           (response_to (request_with_jar "k1") "s1")
           [YieldRequest plain_request; YieldItem "item"]).
  vm_compute. reflexivity.
Defined.

Lemma follow_session_yield_exn self jar objs : ∀ spider,
  is_Some (OrderedDict.get jar (crawlera_sessions spider)) →
  (follow_session_yield self jar spider objs).2
  = if existsb carries_cookiejar objs then Some WrongSessionError else None.
Proof.
  induction objs as [|[r|i] objs IH]; intros spider Hpool;
    cbn [follow_session_yield existsb carries_cookiejar]; [done|..].
  - destruct (no_crawlera_session (meta r)) eqn:Hno; cbn [negb andb orb].
    + specialize (IH spider Hpool).
      destruct (follow_session_yield self jar spider objs) as [[s' out'] e].
      exact IH.
    + change (assign_crawlera_session self "" 0%nat spider r (Some jar))
        with (assign_with self spider r (Some jar)).
      destruct (cookiejar (meta r)) as [k|] eqn:Hk.
      * rewrite bool_decide_eq_true_2 by eauto. cbn [orb].
        destruct (assign_with_bound_request self spider r jar k Hk Hpool)
          as (r' & Heq & _).
        by rewrite Heq.
      * rewrite bool_decide_eq_false_2 by (by intros [? ?]). cbn [orb].
        destruct (assign_with_outcome self spider r jar)
          as [(e & r' & Heq & _)|(r' & Heq & _)].
        -- exfalso. revert Heq. simpl. destruct Hpool as [t ->].
           destruct (crawlera_session self && _); rewrite cookiejar_adapt;
             simpl; by rewrite Hk.
        -- rewrite Heq. specialize (IH (lock jar spider) Hpool).
           destruct (follow_session_yield self jar (lock jar spider) objs)
             as [[s' out'] e].
           exact IH.
  - specialize (IH spider Hpool).
    destruct (follow_session_yield self jar spider objs) as [[s' out'] e].
    exact IH.
Qed.

(** X13.  Once the response has a cookiejar and a session header,
    [follow_session] raises exactly when the callback yields a request that
    is not exempt and already has a cookiejar (one that went through
    [init_request], say), and what it raises is [WrongSessionError]; a
    [KeyError] cannot occur. *)
Theorem follow_session_raises_on_bound_request self spider response objs
    jar t :
  cookiejar (response_meta response) = Some jar →
  response_headers response !! "X-Crawlera-Session" = Some t →
  (follow_session self spider response objs).2
  = if existsb carries_cookiejar objs then Some WrongSessionError else None.
Proof.
  intros Hjar Ht. unfold follow_session, follow_session_enter.
  rewrite Hjar, Ht. apply follow_session_yield_exn. simpl.
  rewrite get_setdefault. eauto.
Qed.

Lemma follow_session_raises_on_bound_request_witness :
  (follow_session default_session (new_spider None)
     (response_to (request_with_jar "k1") "s1")
     [YieldRequest (init_request default_session "u1" plain_request)]).2
  = Some WrongSessionError.
Proof.
  apply (follow_session_raises_on_bound_request default_session
           (new_spider None) (response_to (request_with_jar "k1") "s1")
           [YieldRequest (init_request default_session "u1" plain_request)]
           "k1" "s1"); reflexivity.
Defined.

(** X14.  [follow_session] needs the session header on every response: for
    a response without it the generator raises [KeyError] before yielding
    anything, even when the pool already has a token for the cookiejar,
    whereas the middleware's [process_response] accepts the same response and
    changes nothing. *)
Theorem follow_session_needs_session_header self spider response objs jar :
  cookiejar (response_meta response) = Some jar →
  response_headers response !! "X-Crawlera-Session" = None →
  follow_session self spider response objs = (spider, [], Some KeyError)
  ∧ process_response spider (response_request response)
      (response_headers response) = inr spider.
Proof.
  intros Hjar Hh. unfold follow_session, follow_session_enter, process_response.
  by rewrite Hjar, Hh.
Qed.

Lemma follow_session_needs_session_header_witness :
  follow_session default_session sentinel_spider
    {| response_request := request_with_jar "k1"; response_headers := ∅ |}
    [YieldRequest plain_request]
  = (sentinel_spider, [], Some KeyError)
  ∧ process_response sentinel_spider (request_with_jar "k1") ∅
    = inr sentinel_spider.
Proof.
  apply (follow_session_needs_session_header default_session sentinel_spider
           {| response_request := request_with_jar "k1";
              response_headers := ∅ |}
           [YieldRequest plain_request] "k1"); reflexivity.
Defined.

(** ** Unlocking and availability *)

(** X15.  After [unlock_session] for a response with cookiejar [k], the
    available sessions are those that were available before, together with
    [k] itself when the pool has an entry for it; a cookiejar the pool does
    not know never becomes available. *)
Theorem unlock_session_available spider response k s j :
  cookiejar (response_meta response) = Some k →
  unlock_session spider response = inr s →
  j ∈ available_sessions s
  ↔ j ∈ available_sessions spider
    ∨ j = k ∧ k ∈ OrderedDict.keys (crawlera_sessions spider).
Proof.
  intros Hk. unfold unlock_session. rewrite Hk. intros [= <-].
  unfold available_sessions. rewrite !list_elem_of_filter. simpl.
  rewrite not_elem_of_difference, elem_of_singleton.
  destruct (decide (j = k)) as [->|]; naive_solver.
Qed.

Lemma unlock_session_available_witness :
  "k1" ∈ available_sessions (discard "k1" (lock "k1" sentinel_spider))
  ↔ "k1" ∈ available_sessions (lock "k1" sentinel_spider)
    ∨ "k1" = "k1"
      ∧ "k1" ∈ OrderedDict.keys (crawlera_sessions (lock "k1" sentinel_spider)).
Proof.
  apply (unlock_session_available (lock "k1" sentinel_spider)
           (response_to (request_with_jar "k1") "s1") "k1"
           (discard "k1" (lock "k1" sentinel_spider)) "k1");
    reflexivity.
Defined.

(** X26.  Bind and unlock undo each other on the spider: when a bind has
    locked a cookiejar that was not locked before, [unlock_session] for a
    response to the bound request gives back the spider as it was before
    the bind. *)
Theorem bind_then_unlock self uuid rnd spider request jar j r hs :
  assign_crawlera_session self uuid rnd spider request jar
  = Return true (lock j spider) r →
  j ∉ locked_sessions spider →
  unlock_session (lock j spider)
    {| response_request := r; response_headers := hs |}
  = inr spider.
Proof.
  intros Hbind Hnl.
  assert (Hr : cookiejar (meta r) = Some j).
  { destruct (assign_return_true _ _ _ _ _ _ _ _ Hbind) as (j' & Hs & Hr').
    injection Hs as Hs.
    destruct (decide (j = j')) as [->|Hne]; [done|].
    exfalso. assert (Hin : j ∈ locked_sessions spider ∪ {[j']})
      by (rewrite <- Hs; set_solver).
    set_solver. }
  unfold unlock_session, response_meta. simpl. rewrite Hr. f_equal.
  destruct spider as [pool locked max st]. unfold discard, lock; simpl in *.
  f_equal. set_solver.
Qed.

Lemma bind_then_unlock_witness :
  unlock_session (lock "k1" one_session_spider)
    {| response_request := outcome_request reuse_bound;
       response_headers := ∅ |}
  = inr one_session_spider.
Proof.
  apply (bind_then_unlock default_session "u1" 0%nat one_session_spider
           plain_request None "k1" (outcome_request reuse_bound) ∅).
  - vm_compute. reflexivity.
  - apply not_elem_of_empty.
Defined.

(** ** The pool along a run *)

Lemma step_pool spider e :
  crawlera_sessions (step spider e) = crawlera_sessions spider
  ∨ ∃ k t, crawlera_sessions (step spider e)
           = OrderedDict.setdefault k t (crawlera_sessions spider).
Proof.
  destruct e as [self uuid rnd request jar|request hs|response];
    cbn [step].
  - left. destruct (assign_only_locks_spider self uuid rnd spider request jar)
      as [->|(j & ->)]; done.
  - unfold process_response.
    destruct (hs !! "X-Crawlera-Session") as [t|]; [|by left].
    destruct (cookiejar (meta request)) as [k|]; [|by left].
    right. by exists k, t.
  - left. unfold unlock_session.
    by destruct (cookiejar (response_meta response)).
Qed.

Lemma setdefault_prefix k t d : d `prefix_of` OrderedDict.setdefault k t d.
Proof.
  unfold OrderedDict.setdefault.
  destruct (OrderedDict.get k d); [done | by apply prefix_app_r].
Qed.

Lemma get_prefix k t d d' :
  d `prefix_of` d' → OrderedDict.get k d = Some t →
  OrderedDict.get k d' = Some t.
Proof.
  intros [l ->]. induction d as [|[k' v'] d IH]; simpl; [done|].
  by destruct (decide (k' = k)).
Qed.

Lemma get_None_not_key k d :
  OrderedDict.get k d = None → k ∉ OrderedDict.keys d.
Proof.
  intros Hget Hin. apply get_is_Some in Hin as [v Hv]. congruence.
Qed.

Lemma setdefault_NoDup k t d :
  NoDup (OrderedDict.keys d) →
  NoDup (OrderedDict.keys (OrderedDict.setdefault k t d)).
Proof.
  intros Hnd. unfold OrderedDict.setdefault, OrderedDict.keys.
  destruct (OrderedDict.get k d) eqn:Hget; [done|].
  rewrite fmap_app. apply NoDup_app. split; [done|]. split.
  - intros x Hx [->|[]%elem_of_nil]%elem_of_cons.
    by apply get_None_not_key in Hget.
  - apply NoDup_singleton.
Qed.

(** X16.  The pool is append-only along every sequence of binds, token
    recordings and unlocks: what it held before is a prefix of what it
    holds after, so no session is ever removed or reordered and a token,
    once recorded for a key, stays that key's token. *)
Theorem pool_is_append_only spider trace :
  crawlera_sessions spider `prefix_of` crawlera_sessions (run spider trace)
  ∧ ∀ k t, OrderedDict.get k (crawlera_sessions spider) = Some t →
           OrderedDict.get k (crawlera_sessions (run spider trace)) = Some t.
Proof.
  assert (Hpre : crawlera_sessions spider
                 `prefix_of` crawlera_sessions (run spider trace)).
  { revert spider. induction trace as [|e trace IH]; intros spider; [done|].
    simpl. etrans; [|apply IH].
    destruct (step_pool spider e) as [->|(k & t & ->)];
      [done | apply setdefault_prefix]. }
  split; [done|]. intros k t. by apply get_prefix.
Qed.

(** X17.  The pool never holds two entries for one key: along every
    sequence of binds, token recordings and unlocks from the empty pool its
    keys are pairwise distinct, so the association list is a dictionary. *)
Theorem pool_keys_distinct max trace :
  NoDup (OrderedDict.keys (crawlera_sessions (run (new_spider max) trace))).
Proof.
  assert (H : ∀ spider, NoDup (OrderedDict.keys (crawlera_sessions spider)) →
    NoDup (OrderedDict.keys (crawlera_sessions (run spider trace)))).
  { induction trace as [|e trace IH]; intros spider Hnd; [done|].
    simpl. apply IH.
    destruct (step_pool spider e) as [->|(k & t & ->)];
      [done | by apply setdefault_NoDup]. }
  apply H. constructor.
Qed.

(** ** Capacity when binds do not overlap *)

Lemma setdefault_length k t d :
  (length d ≤ length (OrderedDict.setdefault k t d) ≤ S (length d))%nat.
Proof.
  unfold OrderedDict.setdefault. destruct (OrderedDict.get k d); [lia|].
  rewrite length_app. simpl. lia.
Qed.

Lemma setdefault_known k t d :
  k ∈ OrderedDict.keys d → OrderedDict.setdefault k t d = d.
Proof.
  intros [v Hv]%get_is_Some. unfold OrderedDict.setdefault. by rewrite Hv.
Qed.

Lemma bind_reuse_outcome self uuid rnd spider request s r :
  can_add_new_sessions spider = false →
  assign_crawlera_session self uuid rnd spider request None = Return true s r →
  ∃ j, cookiejar (meta r) = Some j
       ∧ j ∈ OrderedDict.keys (crawlera_sessions spider)
       ∧ s = lock j spider.
Proof.
  intros Hcan Hbind. unfold assign_crawlera_session in Hbind.
  rewrite Hcan in Hbind.
  destruct (available_sessions spider) as [|a l] eqn:Hav; [done|].
  destruct (random_choice_elem rnd (a :: l)) as (j & Hj & Hin); [done|].
  rewrite Hj in Hbind. rewrite <- Hav in Hin.
  apply available_sessions_in_pool in Hin as [Hin _].
  destruct (assign_with_outcome self spider request j)
    as [(e & r' & Heq & _)|(r' & Heq & Hr & _)];
    rewrite Heq in Hbind; [done|].
  injection Hbind as <- <-. eauto.
Qed.

Lemma exchange_step_capacity spider max x :
  MAX_PARALLEL_CRAWLERA_SESSIONS spider = Some max →
  Z.of_nat (length (crawlera_sessions spider)) ≤ max →
  MAX_PARALLEL_CRAWLERA_SESSIONS (exchange_step spider x) = Some max
  ∧ Z.of_nat (length (crawlera_sessions (exchange_step spider x))) ≤ max.
Proof.
  intros Hmax Hlen. destruct x as [self uuid rnd t request|response].
  - cbn [exchange_step]. unfold bind_then_record.
    destruct (can_add_new_sessions spider) eqn:Hcan.
    + rewrite bind_new_session by done.
      unfold process_response, session_header.
      rewrite lookup_singleton_eq, cookiejar_init_request. simpl.
      split; [done|].
      unfold can_add_new_sessions in Hcan. rewrite Hmax in Hcan.
      apply bool_decide_eq_true in Hcan.
      pose proof (setdefault_length
        (default uuid (cookiejar (meta request))) t (crawlera_sessions spider)).
      lia.
    + destruct (assign_crawlera_session self uuid rnd spider request None)
        as [[] s r|e s r] eqn:Hbind.
      * destruct (bind_reuse_outcome _ _ _ _ _ _ _ Hcan Hbind)
          as (j & Hr & Hin & ->).
        unfold process_response, session_header.
        rewrite lookup_singleton_eq, Hr. simpl.
        by rewrite setdefault_known.
      * by apply assign_false_unchanged in Hbind as [-> _].
      * destruct (assign_only_locks_spider self uuid rnd spider request None)
          as [Heq|(j & Heq)]; rewrite Hbind in Heq; simpl in Heq;
          by rewrite Heq.
  - cbn [exchange_step step]. unfold unlock_session.
    by destruct (cookiejar (response_meta response)).
Qed.

(** X18.  Take a run made of two kinds of steps only: an exchange, which is
    a bind without explicit cookiejar followed at once, when it returned
    [True], by [process_response] recording a token for the request it
    bound; and an unlock.  No token is recorded for any other request in
    such a run, neither for a start request nor for a request bound to an
    explicit cookiejar.  Then a pool whose size is within
    [MAX_PARALLEL_CRAWLERA_SESSIONS] stays within it. *)
Theorem capacity_respected_one_bind_at_a_time spider max xs :
  MAX_PARALLEL_CRAWLERA_SESSIONS spider = Some max →
  Z.of_nat (length (crawlera_sessions spider)) ≤ max →
  Z.of_nat (length (crawlera_sessions (foldl exchange_step spider xs))) ≤ max.
Proof.
  revert spider. induction xs as [|x xs IH]; intros spider Hmax Hlen; [done|].
  simpl. destruct (exchange_step_capacity spider max x Hmax Hlen).
  by apply IH.
Qed.

Lemma capacity_respected_one_bind_at_a_time_witness :
  Z.of_nat
    (length
       (crawlera_sessions
          (foldl exchange_step (new_spider (Some 1))
             [ Exchange default_session "k1" 0%nat "s1" plain_request;
               Exchange default_session "k2" 0%nat "s2" plain_request ])))
  ≤ 1.
Proof.
  apply (capacity_respected_one_bind_at_a_time (new_spider (Some 1)) 1
           [ Exchange default_session "k1" 0%nat "s1" plain_request;
             Exchange default_session "k2" 0%nat "s2" plain_request ]).
  - reflexivity.
  - simpl. lia.
Defined.

(** ** More on the gate *)

Lemma list_remove_first_perm q retained :
  q ∈ retained → q :: list_remove_first q retained ≡ₚ retained.
Proof.
  induction retained as [|y l IH]; [by intros ?%elem_of_nil|].
  intros Hin. simpl. destruct (decide (y = q)) as [->|Hne]; [done|].
  apply elem_of_cons in Hin as [->|Hin]; [done|].
  rewrite Permutation_swap. by rewrite IH.
Qed.

(** X19.  A pull loses and invents nothing: the request it returns, the
    requests retained afterwards and the queue it leaves are together a
    rearrangement of the requests retained before and the queue it found.
    It takes at most the first request of the queue, and what it returns is
    eligible at that moment. *)
Theorem next_request_conserves spider retained upstream
    returned retained' upstream' :
  _next_request spider retained upstream = (returned, retained', upstream') →
  option_list returned ++ retained' ++ upstream' ≡ₚ retained ++ upstream
  ∧ (upstream' = upstream ∨ ∃ x, upstream = x :: upstream')
  ∧ ∀ q, returned = Some q → _can_enqueue_request spider q = true.
Proof.
  intros Hnext. split; [|split].
  - revert Hnext. unfold _next_request.
    destruct (List.find _ retained) as [q|] eqn:Hfind.
    + intros [= <- <- <-]. apply find_eligible in Hfind as [_ Hin].
      simpl. by rewrite app_comm_cons, list_remove_first_perm.
    + destruct upstream as [|new up]; [by intros [= <- <- <-]|].
      destruct (_can_enqueue_request spider new); intros [= <- <- <-]; simpl.
      * by rewrite Permutation_middle.
      * by rewrite <- app_assoc.
  - revert Hnext. unfold _next_request.
    destruct (List.find _ retained); [intros [= _ _ <-]; by left|].
    destruct upstream as [|new up]; [intros [= _ _ <-]; by left|].
    destruct (_can_enqueue_request spider new); intros [= _ _ <-];
      right; eauto.
  - intros q ->. by eapply next_request_eligible.
Qed.

Lemma next_request_conserves_witness :
  option_list None ++ [plain_request; deferred_request] ++ []
  ≡ₚ [plain_request] ++ [deferred_request]
  ∧ ([] = [deferred_request] ∨ ∃ x, [deferred_request] = x :: [])
  ∧ ∀ q, None = Some q → _can_enqueue_request no_session_spider q = true.
Proof.
  apply (next_request_conserves no_session_spider [plain_request]
           [deferred_request] None [plain_request; deferred_request] []).
  reflexivity.
Defined.

Lemma next_request_unbounded spider upstream :
  can_add_new_sessions spider = true →
  _next_request spider [] upstream = (head upstream, [], tail upstream).
Proof.
  intros Hcan. unfold _next_request. cbn [List.find].
  destruct upstream as [|new up]; [done|].
  unfold _can_enqueue_request. rewrite Hcan.
  by destruct (truthy (cookiejar (meta new))).
Qed.

(** X20.  Without a capacity bound the gate is transparent: as long as
    [can_add_new_sessions] holds at each pull, every pull from the empty
    gate returns what the scheduler returns, the gate retains nothing, and
    the assertion of [spider_closed] holds afterwards. *)
Theorem gate_transparent envs :
  Forall (λ env, can_add_new_sessions env.1 = true) envs →
  pulls envs [] = ((λ env, (head env.2, tail env.2)) <$> envs, [])
  ∧ spider_closed (pulls envs []).2 = true.
Proof.
  intros Hall.
  assert (Hp : pulls envs []
               = ((λ env, (head env.2, tail env.2)) <$> envs, [])).
  { induction Hall as [|[spider upstream] envs Hcan _ IH]; [done|].
    cbn [pulls]. rewrite next_request_unbounded by done. by rewrite IH. }
  by rewrite Hp.
Qed.

Lemma gate_transparent_witness :
  pulls [ (new_spider None, [plain_request; deferred_request]);
          (new_spider None, []) ] []
  = ([ (Some plain_request, [deferred_request]); (None, []) ], [])
  ∧ spider_closed
      (pulls [ (new_spider None, [plain_request; deferred_request]);
               (new_spider None, []) ] []).2 = true.
Proof.
  apply (gate_transparent
           [ (new_spider None, [plain_request; deferred_request]);
             (new_spider None, []) ]).
  repeat constructor.
Defined.

(** X21.  The gate, started empty, never holds back a request on which the
    session decision has been made: after any pulls, in any states of the
    spider and of the scheduler, no retained request has a non-empty
    cookiejar. *)
Theorem gate_retains_only_unbound envs q :
  q ∈ (pulls envs []).2 → truthy (cookiejar (meta q)) = false.
Proof.
  intros Hin.
  assert (Hall : Forall unbound (pulls envs []).2)
    by (apply pulls_retain_unbound; constructor).
  rewrite Forall_forall in Hall. by apply Hall.
Qed.

Lemma gate_retains_only_unbound_witness :
  truthy (cookiejar (meta plain_request)) = false.
Proof.
  apply (gate_retains_only_unbound
           [(no_session_spider, [plain_request])] plain_request).
  apply list_elem_of_here.
Defined.

(** ** Redirects *)

(** X22.  On a redirect the next request carries the session of the
    response: its session header is the response's, which for a cookiejar
    new to the pool is the token [process_response] records for it; its
    meta and its other headers are as scrapy built them.  A response
    without session header, and a result that is no request, pass
    unchanged. *)
Theorem redirect_carries_session spider request response next jar t :
  cookiejar (meta request) = Some jar →
  response_headers response !! "X-Crawlera-Session" = Some t →
  OrderedDict.get jar (crawlera_sessions spider) = None →
  ∃ s r,
    process_response spider request (response_headers response) = inr s
    ∧ redirect_process_response (inl next) response = inl r
    ∧ headers r !! "X-Crawlera-Session" = Some t
    ∧ OrderedDict.get jar (crawlera_sessions s) = Some t
    ∧ meta r = meta next
    ∧ (∀ name, name ≠ "X-Crawlera-Session" →
               headers r !! name = headers next !! name)
    ∧ redirect_process_response (inr response) response = inr response.
Proof.
  intros Hjar Ht Hget. unfold process_response, redirect_process_response.
  rewrite Ht, Hjar. eexists _, _. split; [done|]. split; [done|].
  repeat split.
  - simpl. apply lookup_insert_eq.
  - simpl. by rewrite get_setdefault, Hget.
  - intros name Hne. simpl. by rewrite lookup_insert_ne.
Qed.

Lemma redirect_carries_session_witness :
  ∃ s r,
    process_response (new_spider None) (request_with_jar "k1")
      (response_headers (response_to (request_with_jar "k1") "s1")) = inr s
    ∧ redirect_process_response (inl (request_with_jar "k1"))
        (response_to (request_with_jar "k1") "s1") = inl r
    ∧ headers r !! "X-Crawlera-Session" = Some "s1"
    ∧ OrderedDict.get "k1" (crawlera_sessions s) = Some "s1"
    ∧ meta r = meta (request_with_jar "k1")
    ∧ (∀ name, name ≠ "X-Crawlera-Session" →
               headers r !! name = headers (request_with_jar "k1") !! name)
    ∧ redirect_process_response
        (inr (response_to (request_with_jar "k1") "s1"))
        (response_to (request_with_jar "k1") "s1")
      = inr (response_to (request_with_jar "k1") "s1").
Proof.
  apply (redirect_carries_session (new_spider None) (request_with_jar "k1")
           (response_to (request_with_jar "k1") "s1")
           (request_with_jar "k1") "k1" "s1"); reflexivity.
Defined.

(** X23.  Through a chain of redirects the request carries the session
    header of the last response that had one, or its own when none had:
    [build] is scrapy's construction of the next request from the current
    one, which keeps the request's headers. *)
Theorem redirect_chain_keeps_last_session
    (build : Request → Response → Request) next responses :
  (∀ r response, headers (build r response) !! "X-Crawlera-Session"
                 = headers r !! "X-Crawlera-Session") →
  headers
    (foldl (λ r response,
              match redirect_process_response (inl (build r response))
                      response with
              | inl r' => r'
              | inr _ => r
              end) next responses) !! "X-Crawlera-Session"
  = default (headers next !! "X-Crawlera-Session")
      (Some <$> last (omap (λ response,
                              response_headers response
                                !! "X-Crawlera-Session") responses)).
Proof.
  intros Hbuild. revert next.
  induction responses as [|response responses IH] using rev_ind;
    intros next; [done|].
  rewrite foldl_app, omap_app. simpl.
  destruct (response_headers response !! "X-Crawlera-Session") as [t|];
    simpl.
  - rewrite last_snoc. simpl. apply lookup_insert_eq.
  - rewrite app_nil_r, Hbuild. apply IH.
Qed.

Lemma redirect_chain_keeps_last_session_witness :
  headers
    (foldl (λ r response,
              match redirect_process_response (inl r) response with
              | inl r' => r'
              | inr _ => r
              end) plain_request
       [ response_to plain_request "s1";
         {| response_request := plain_request; response_headers := ∅ |} ])
    !! "X-Crawlera-Session"
  = default (headers plain_request !! "X-Crawlera-Session")
      (Some <$> last (omap (λ response,
                              response_headers response
                                !! "X-Crawlera-Session")
                        [ response_to plain_request "s1";
                          {| response_request := plain_request;
                             response_headers := ∅ |} ])).
Proof.
  apply (redirect_chain_keeps_last_session (λ r _, r) plain_request
           [ response_to plain_request "s1";
             {| response_request := plain_request;
                response_headers := ∅ |} ]).
  reflexivity.
Defined.

(** ** update_settings *)

(** X24.  When the base has both stock middlewares, [update_settings]
    succeeds: the two session middlewares get the positions the stock
    redirect and cookies middlewares had, the stock ones are gone from the
    base, and no other entry of either setting changes. *)
Theorem update_settings_swaps settings p1 p2 :
  DOWNLOADER_MIDDLEWARES_BASE settings !! stock_redirect = Some p1 →
  DOWNLOADER_MIDDLEWARES_BASE settings !! stock_cookies = Some p2 →
  ∃ s, update_settings settings = inr s
       ∧ DOWNLOADER_MIDDLEWARES s !! session_redirect = Some p1
       ∧ DOWNLOADER_MIDDLEWARES s !! session_cookies = Some p2
       ∧ DOWNLOADER_MIDDLEWARES_BASE s !! stock_redirect = None
       ∧ DOWNLOADER_MIDDLEWARES_BASE s !! stock_cookies = None
       ∧ (∀ name, name ≠ session_redirect → name ≠ session_cookies →
                  DOWNLOADER_MIDDLEWARES s !! name
                  = DOWNLOADER_MIDDLEWARES settings !! name)
       ∧ (∀ name, name ≠ stock_redirect → name ≠ stock_cookies →
                  DOWNLOADER_MIDDLEWARES_BASE s !! name
                  = DOWNLOADER_MIDDLEWARES_BASE settings !! name).
Proof.
  intros H1 H2. unfold update_settings, swap_middleware. rewrite H1. simpl.
  rewrite lookup_delete_ne by done. rewrite H2.
  eexists. split; [done|]. simpl. repeat split.
  - rewrite lookup_insert_ne by done. apply lookup_insert_eq.
  - apply lookup_insert_eq.
  - rewrite lookup_delete_ne by done. apply lookup_delete_eq.
  - apply lookup_delete_eq.
  - intros name Hn1 Hn2. by rewrite !lookup_insert_ne.
  - intros name Hn1 Hn2. by rewrite !lookup_delete_ne.
Qed.

Lemma update_settings_swaps_witness :
  ∃ s, update_settings stock_settings = inr s
       ∧ DOWNLOADER_MIDDLEWARES s !! session_redirect = Some 600
       ∧ DOWNLOADER_MIDDLEWARES s !! session_cookies = Some 700
       ∧ DOWNLOADER_MIDDLEWARES_BASE s !! stock_redirect = None
       ∧ DOWNLOADER_MIDDLEWARES_BASE s !! stock_cookies = None
       ∧ (∀ name, name ≠ session_redirect → name ≠ session_cookies →
                  DOWNLOADER_MIDDLEWARES s !! name
                  = DOWNLOADER_MIDDLEWARES stock_settings !! name)
       ∧ (∀ name, name ≠ stock_redirect → name ≠ stock_cookies →
                  DOWNLOADER_MIDDLEWARES_BASE s !! name
                  = DOWNLOADER_MIDDLEWARES_BASE stock_settings !! name).
Proof.
  apply (update_settings_swaps stock_settings 600 700);
    vm_compute; reflexivity.
Defined.

(** X25.  [update_settings] cannot be applied twice: on settings it has
    already updated, the first [pop] finds no stock redirect middleware and
    raises [KeyError], and the settings stay as they are. *)
Theorem update_settings_twice settings s :
  update_settings settings = inr s →
  update_settings s = inl (KeyError, s).
Proof.
  unfold update_settings, swap_middleware.
  destruct (DOWNLOADER_MIDDLEWARES_BASE settings !! stock_redirect) as [p1|];
    [|done]. simpl.
  destruct (delete stock_redirect (DOWNLOADER_MIDDLEWARES_BASE settings)
              !! stock_cookies) as [p2|]; [|done].
  intros [= <-]. simpl.
  rewrite lookup_delete_ne by done. by rewrite lookup_delete_eq.
Qed.

Lemma update_settings_twice_witness :
  update_settings
    (match update_settings stock_settings with
     | inr s => s
     | inl (_, s) => s
     end)
  = inl (KeyError,
         match update_settings stock_settings with
         | inr s => s
         | inl (_, s) => s
         end).
Proof.
  apply (update_settings_twice stock_settings).
  vm_compute. reflexivity.
Defined.
